(** * Query service of the farm dashboard (main.py)

    A shallow embedding of the three read endpoints of [main.py]
    ([api_sensors], [api_summary], [api_timeseries]) together with the
    operators of the document store they call ([distinct], the aggregation
    stages [$sort], [$group], [$match], and [find]/[sort]/[limit]).  A
    second part embeds the account handlers ([register], [login]), the
    user loader [load_user] and the probe [health]; its conventions are
    stated where it begins.

    Modelling conventions.
    - A stored reading is a record with the five fields of the documented
      schema.  The store's internal [_id] field, which every endpoint
      projects away ([{"_id": 0}]), is not represented.
    - Timestamps are integers counting milliseconds since the epoch, the
      resolution at which the store keeps datetimes.
    - A sensor value is the rational number that its double denotes.
      [$min] and [$max] compare such numbers exactly.  [$avg] computes in
      binary floating point inside the store: it is a parameter of the
      model ([store_avg]), and nothing is assumed of how it rounds.
    - What the interpreter and the driver decide is a parameter as well:
      [int] on a text ([py_int]), whose answer depends on the Unicode
      tables and the digit limit of the interpreter, and the size of the
      single batch to which a negative limit confines an answer
      ([first_batch]).
    - The collection is the list of its documents in natural (iteration)
      order.  The handlers are modelled with a sort that is stable with
      respect to that order and a [$group] that emits groups in order of
      first occurrence.  The store promises neither: the part on repeated
      reads states which answers the store may give when documents
      compare equal, and in which cases all of them are the modelled one.
    - A response carries the readings and statistics themselves; their
      rendering as JSON text is not modelled.
    - The endpoints run behind [@login_required]; the model starts after
      that gate has let the request through. *)

From Stdlib Require Import List String Ascii Bool ZArith QArith Lia.
From Stdlib Require Import Permutation Sorted.
Import ListNotations.

Close Scope Q_scope.
Open Scope string_scope.
Open Scope list_scope.
Open Scope Z_scope.

(* ================================================================== *)
(** * Data model *)
(* ================================================================== *)

(** An optional document field: not present at all, present with the
    value [null], or present with a value. *)
Inductive Field (A : Type) : Type :=
| Absent
| Null
| Value (a : A).
Arguments Absent {A}.
Arguments Null {A}.
Arguments Value {A} a.

(** One sensor observation (docstring of [api_summary], lines 178-185). *)
Record Reading : Type := mkReading {
  sensor    : string;
  value     : Q;
  unit_     : option string;
  timestamp : Z;
  location  : Field string
}.

(** One row of the 24 hour statistics (the [$project] of line 212). *)
Record Stat : Type := mkStat {
  stat_sensor : string;
  stat_count  : nat;
  stat_min    : Q;
  stat_max    : Q;
  stat_avg    : Q
}.

(* ================================================================== *)
(** * Python builtins used by the handlers *)
(* ================================================================== *)

(** Truthiness of a [str]: only the empty string is falsy. *)
Definition truthy (s : string) : bool :=
  match s with
  | EmptyString => false
  | String _ _ => true
  end.

(** Truthiness of a value that is a [str] or [None]. *)
Definition truthy_opt (o : option string) : bool :=
  match o with
  | Some s => truthy s
  | None => false
  end.

(** Stable insertion sort: [sorted(l, key=...)] and the store's sort are
    both stable sorts; every stable sort computes the same list. *)
Fixpoint insert_sorted {A : Type} (le : A -> A -> bool) (x : A) (l : list A)
  : list A :=
  match l with
  | [] => [x]
  | y :: l' => if le x y then x :: y :: l' else y :: insert_sorted le x l'
  end.

Definition stable_sort {A : Type} (le : A -> A -> bool) (l : list A) : list A :=
  fold_right (insert_sorted le) [] l.

(** [sorted] on a list of [str]: lexicographic order of the code units. *)
Definition sorted_str (l : list string) : list string :=
  stable_sort String.leb l.

(** [int(s)] for a [str] is the interpreter's own: which digits and
    blanks it knows and how many digits it reads depend on its version.
    The handlers are modelled over any such function (the parameter
    [py_int] below).  [ascii_int] is the one on which the examples run: it
    reads the literals of base ten made of ASCII digits, where surrounding
    ASCII white space (tab to carriage return, the four separators 28 to
    31, and the blank) is stripped, one sign is allowed and single
    underscores may separate digits. *)
Definition is_space (c : ascii) : bool :=
  let n := N_of_ascii c in
  ((9 <=? n)%N && (n <=? 13)%N) || ((28 <=? n)%N && (n <=? 32)%N).

Definition digit_val (c : ascii) : option Z :=
  let n := Z.of_N (N_of_ascii c) in
  if (48 <=? n) && (n <=? 57) then Some (n - 48) else None.

Fixpoint lstrip (cs : list ascii) : list ascii :=
  match cs with
  | c :: cs' => if is_space c then lstrip cs' else cs
  | [] => []
  end.

Definition strip (cs : list ascii) : list ascii :=
  rev (lstrip (rev (lstrip cs))).

Fixpoint parse_digits (acc : Z) (after_digit : bool) (cs : list ascii)
  : option Z :=
  match cs with
  | [] => if after_digit then Some acc else None
  | c :: cs' =>
      match digit_val c with
      | Some d => parse_digits (acc * 10 + d) true cs'
      | None =>
          if Ascii.eqb c "_"%char && after_digit
          then parse_digits acc false cs'
          else None
      end
  end.

Definition ascii_decimal (s : string) : option Z :=
  match strip (list_ascii_of_string s) with
  | c :: cs =>
      if Ascii.eqb c "-"%char then option_map Z.opp (parse_digits 0 false cs)
      else if Ascii.eqb c "+"%char then parse_digits 0 false cs
      else parse_digits 0 false (c :: cs)
  | [] => None
  end.

Definition ascii_int (s : string) : string + Z :=
  match ascii_decimal s with
  | Some n => inr n
  | None => inl ("invalid literal for int() with base 10: '" ++ s ++ "'")%string
  end.

(** [datetime.now(timezone.utc) - timedelta(hours=h)], in milliseconds.
    [timedelta] refuses more than 999999999 days and the difference must
    stay between 0001-01-01 and 9999-12-31; [None] stands for the
    [OverflowError] raised otherwise. *)
Definition ms_per_hour : Z := 3600000.
Definition datetime_min : Z := -62135596800000.
Definition datetime_max : Z := 253402300799999.

Definition hours_before (now hours : Z) : option Z :=
  if Z.abs (hours / 24) <=? 999999999 then
    let t := now - hours * ms_per_hour in
    if (datetime_min <=? t) && (t <=? datetime_max) then Some t else None
  else None.

(** The average and the batch on which the examples run.  [exact_mean]
    is the mean in exact arithmetic, which is the store's average wherever
    the sum and the quotient can be represented without rounding; 101 is
    the number of documents of the default first batch. *)
Definition exact_mean (vs : list Q) : Q :=
  Qdiv (fold_left Qplus vs (0 # 1)%Q) (inject_Z (Z.of_nat (List.length vs))).

Definition batch_of_101 {A : Type} (docs : list A) : nat := 101%nat.

(* ================================================================== *)
(** * What the interpreter, the driver and the store decide *)
(* ================================================================== *)

Section Runtime.

(** A lemma depends on those parameters that its statement mentions. *)
Local Set Default Proof Using "Type".

(** [int(s)] for a [str]: the integer, or the text of the [ValueError]
    that it raises. *)
Variable py_int : string -> string + Z.

(** The accumulator [$avg] on the values of a group, in the order in which
    they arrive. *)
Variable store_avg : list Q -> Q.

(** The number of documents that the server puts in the first batch of
    an answer made of these documents. *)
Variable first_batch : list Reading -> nat.

(* ================================================================== *)
(** * Operators of the document store *)
(* ================================================================== *)

(** The distinct elements of a list, in order of first occurrence. *)
Fixpoint distinct {A : Type} (eqb : A -> A -> bool) (l : list A) : list A :=
  match l with
  | [] => []
  | x :: l' => x :: filter (fun y => negb (eqb x y)) (distinct eqb l')
  end.

(** [col.distinct("sensor")]. *)
Definition distinct_sensor (docs : list Reading) : list string :=
  distinct String.eqb (map sensor docs).

(** [col.distinct("location")]: a document without the field contributes
    nothing, a [null] contributes [None]. *)
Definition location_values (r : Reading) : list (option string) :=
  match location r with
  | Absent => []
  | Null => [None]
  | Value l => [Some l]
  end.

Definition option_string_eqb (a b : option string) : bool :=
  match a, b with
  | Some x, Some y => String.eqb x y
  | None, None => true
  | _, _ => false
  end.

Definition distinct_location (docs : list Reading) : list (option string) :=
  distinct option_string_eqb (flat_map location_values docs).

(** [[l for l in values if l]]. *)
Definition keep_truthy (values : list (option string)) : list string :=
  flat_map (fun v => match v with
                     | Some l => if truthy l then [l] else []
                     | None => []
                     end) values.

(** Order of the store on an optional string field: a missing field
    compares as [null], and [null] sorts before every string. *)
Definition compare_location (a b : Field string) : comparison :=
  match a, b with
  | Value x, Value y => String.compare x y
  | Value _, _ => Gt
  | _, Value _ => Lt
  | _, _ => Eq
  end.

(** [{"$sort": {"sensor": 1, "location": 1, "timestamp": -1}}]. *)
Definition compare_latest (a b : Reading) : comparison :=
  match String.compare (sensor a) (sensor b) with
  | Eq =>
      match compare_location (location a) (location b) with
      | Eq => Z.compare (timestamp b) (timestamp a)
      | c => c
      end
  | c => c
  end.

Definition le_of {A : Type} (cmp : A -> A -> comparison) (a b : A) : bool :=
  match cmp a b with
  | Gt => false
  | _ => true
  end.

Definition sort_latest (docs : list Reading) : list Reading :=
  stable_sort (le_of compare_latest) docs.

(** [{"$ifNull": [field, default]}]. *)
Definition ifNull (f : Field string) (default : string) : string :=
  match f with
  | Value s => s
  | _ => default
  end.

(** The [_id] of the [$group] stage of line 193. *)
Definition group_id (r : Reading) : string * string :=
  (sensor r, ifNull (location r) "__none__").

Definition group_id_eqb (a b : string * string) : bool :=
  String.eqb (fst a) (fst b) && String.eqb (snd a) (snd b).

(** [$group]: one group per distinct key, holding the documents of that
    key in the order in which they arrive. *)
Definition group_stage {K A : Type} (eqb : K -> K -> bool) (key : A -> K)
  (docs : list A) : list (K * list A) :=
  map (fun k => (k, filter (fun d => eqb k (key d)) docs))
      (distinct eqb (map key docs)).

(** [{"latest": {"$first": "$$ROOT"}}] followed by [$replaceRoot] on
    [latest] and the projection that drops [_id]. *)
Definition first_of_group {K : Type} (g : K * list Reading) : list Reading :=
  match snd g with
  | d :: _ => [d]
  | [] => []
  end.

(** The pipeline of lines 190-198. *)
Definition latest_pipeline (docs : list Reading) : list Reading :=
  flat_map first_of_group (group_stage group_id_eqb group_id (sort_latest docs)).

(** Accumulators [$min] and [$max] over a group; [{"$sum": 1}] counts
    its documents and [$avg] is [store_avg]. *)
Definition q_min (a b : Q) : Q := if Qle_bool a b then a else b.
Definition q_max (a b : Q) : Q := if Qle_bool a b then b else a.

Definition acc_min (v : Q) (vs : list Q) : Q := fold_left q_min vs v.
Definition acc_max (v : Q) (vs : list Q) : Q := fold_left q_max vs v.

(** [{"$match": {"timestamp": {"$gte": since}}}]. *)
Definition match_since (since : Z) (docs : list Reading) : list Reading :=
  filter (fun r => since <=? timestamp r) docs.

Definition stat_of_group (g : string * list Reading) : list Stat :=
  match map value (snd g) with
  | v :: vs =>
      [ {| stat_sensor := fst g;
           stat_count := List.length (v :: vs);
           stat_min := acc_min v vs;
           stat_max := acc_max v vs;
           stat_avg := store_avg (v :: vs) |} ]
  | [] => []
  end.

(** The pipeline of lines 203-213. *)
Definition stats_pipeline (since : Z) (docs : list Reading) : list Stat :=
  flat_map stat_of_group
    (group_stage String.eqb sensor (match_since since docs)).

(** The filter document handed to [find] (lines 246-248): [location] is
    a key of the query only when the handler put it there. *)
Record Query : Type := mkQuery {
  q_sensor   : string;
  q_since    : Z;
  q_location : option string
}.

Definition location_is (l : string) (f : Field string) : bool :=
  match f with
  | Value l' => String.eqb l' l
  | _ => false
  end.

Definition matches (q : Query) (r : Reading) : bool :=
  String.eqb (sensor r) (q_sensor q)
  && (q_since q <=? timestamp r)
  && match q_location q with
     | Some l => location_is l (location r)
     | None => true
     end.

(** [.sort("timestamp", DESCENDING)]. *)
Definition ts_ge (a b : Reading) : bool := timestamp b <=? timestamp a.
(** [key=lambda d: d.get("timestamp")], ascending. *)
Definition ts_le (a b : Reading) : bool := timestamp a <=? timestamp b.

(** [.limit(n)]: zero means no limit; a positive limit keeps that many
    documents; for a negative one the driver sends its absolute value and
    asks for a single batch, so that the answer ends with the first
    batch. *)
Definition cursor_limit (n : Z) (l : list Reading) : list Reading :=
  if n =? 0 then l
  else if 0 <? n then firstn (Z.to_nat n) l
  else firstn (Nat.min (Z.abs_nat n) (first_batch l)) l.

(** The documents that
    [list(col.find(query, projection).sort(...).limit(limit))] holds when
    the command goes through; the projection keeps the five fields of a
    reading. *)
Definition find_sort_limit (q : Query) (limit : Z) (docs : list Reading)
  : list Reading :=
  cursor_limit limit (stable_sort ts_ge (filter (matches q) docs)).

(** The greatest integer of the wire format (eight bytes, signed). *)
Definition int64_max : Z := 9223372036854775807.

(* ================================================================== *)
(** * The request environment *)
(* ================================================================== *)

Inductive Exception : Type :=
| PyMongoError (msg : string)
| ValueError (msg : string)
| OverflowError (msg : string).

(** What a handler asks of the store, in the order in which it asks. *)
Inductive Access : Type :=
| Connect
| Distinct (field : string)
| AggregateLatest
| AggregateStats (since : Z)
| Find (q : Query) (limit : Z).

(** The collection answers every operation, or fails every operation
    with an error whose text is [err]. *)
Inductive Collection : Type :=
| Reachable (docs : list Reading)
| Unreachable (err : string).

Record World : Type := mkWorld {
  MONGODB_URI : option string;
  readings    : Collection;
  clock       : Z;
  accesses    : list Access
}.

(** Computations that read the world, log their store accesses and may
    raise. *)
Definition M (A : Type) : Type := World -> (Exception + A) * World.

Definition ret {A : Type} (a : A) : M A := fun w => (inr a, w).

Definition raise {A : Type} (e : Exception) : M A := fun w => (inl e, w).

Definition bind {A B : Type} (m : M A) (k : A -> M B) : M B :=
  fun w =>
    match m w with
    | (inr a, w') => k a w'
    | (inl e, w') => (inl e, w')
    end.

Notation "x <- m ;; k" := (bind m (fun x => k))
  (at level 61, m at next level, right associativity).

(** [try: body except PyMongoError as e: handler(str(e))]. *)
Definition try_except_PyMongoError {A : Type} (body : M A)
  (handler : string -> M A) : M A :=
  fun w =>
    match body w with
    | (inl (PyMongoError msg), w') => handler msg w'
    | r => r
    end.

Definition log (a : Access) : M unit :=
  fun w => (inr tt, {| MONGODB_URI := MONGODB_URI w;
                       readings := readings w;
                       clock := clock w;
                       accesses := accesses w ++ [a] |}).

(** [get_db] (lines 28-32); [get_collection] only indexes its result. *)
Definition get_db : M unit :=
  fun w =>
    if truthy_opt (MONGODB_URI w)
    then log Connect w
    else raise (ValueError "MongoDB connection string is not set. Please set MONGODB_URI in .env file") w.

Definition get_collection : M unit := get_db.

(** One operation on the collection. *)
Definition store_op {A : Type} (a : Access) (f : list Reading -> A) : M A :=
  _ <- log a ;;
  fun w =>
    match readings w with
    | Reachable docs => (inr (f docs), w)
    | Unreachable err => (inl (PyMongoError err), w)
    end.

(** [list(col.find(...).sort(...).limit(limit))] on the collection: the
    command is built once a server has been found, and the driver refuses
    to encode a limit whose absolute value does not fit in eight bytes. *)
Definition store_find (q : Query) (limit : Z) : M (list Reading) :=
  _ <- log (Find q limit) ;;
  fun w =>
    match readings w with
    | Unreachable err => (inl (PyMongoError err), w)
    | Reachable docs =>
        if Z.abs limit <=? int64_max
        then (inr (find_sort_limit q limit docs), w)
        else (inl (OverflowError "MongoDB can only handle up to 8-byte ints"), w)
    end.

(** [datetime.now(timezone.utc) - timedelta(hours=h)]. *)
Definition since_hours (h : Z) : M Z :=
  fun w =>
    match hours_before (clock w) h with
    | Some t => (inr t, w)
    | None => (inl (OverflowError "date value out of range"), w)
    end.

(* ================================================================== *)
(** * Responses *)
(* ================================================================== *)

Inductive Body : Type :=
| BError (error : string)
| BDimensions (sensors locations : list string)
| BSummary (latest : list Reading) (stats_24h : list Stat)
| BSeries (docs : list Reading).

Record Response : Type := mkResponse {
  status : Z;
  body   : Body
}.

(** The query string, as the list of its key/value pairs;
    [request.args.get(k)] is the first value of [k]. *)
Definition Request : Type := list (string * string).

Fixpoint args_get (k : string) (req : Request) : option string :=
  match req with
  | [] => None
  | (k', v) :: req' => if String.eqb k' k then Some v else args_get k req'
  end.

(** [int(request.args.get(k, default))]. *)
Definition int_arg (k : string) (default : Z) (req : Request) : M Z :=
  match args_get k req with
  | None => ret default
  | Some s =>
      match py_int s with
      | inr n => ret n
      | inl msg => raise (ValueError msg)
      end
  end.

(* ================================================================== *)
(** * The three handlers *)
(* ================================================================== *)

(** [api_sensors] (lines 162-170). *)
Definition api_sensors : M Response :=
  try_except_PyMongoError
    (_ <- get_collection ;;
     ds <- store_op (Distinct "sensor") distinct_sensor ;;
     let sensors := sorted_str ds in
     dl <- store_op (Distinct "location") distinct_location ;;
     let locations := sorted_str (keep_truthy dl) in
     ret (mkResponse 200 (BDimensions sensors locations)))
    (fun e => ret (mkResponse 500 (BError e))).

(** [api_summary] (lines 175-221). *)
Definition api_summary : M Response :=
  try_except_PyMongoError
    (_ <- get_collection ;;
     latest <- store_op AggregateLatest latest_pipeline ;;
     since <- since_hours 24 ;;
     stats <- store_op (AggregateStats since) (stats_pipeline since) ;;
     ret (mkResponse 200 (BSummary latest stats)))
    (fun e => ret (mkResponse 500 (BError e))).

(** Lines 246-248. *)
Definition build_query (sensor_ : string) (since : Z)
  (location_ : option string) : Query :=
  {| q_sensor := sensor_;
     q_since := since;
     q_location := if truthy_opt location_ then location_ else None |}.

(** Lines 246-255, once the collection has answered. *)
Definition timeseries_docs (sensor_ : string) (since : Z)
  (location_ : option string) (limit : Z) (docs : list Reading)
  : list Reading :=
  stable_sort ts_le
    (find_sort_limit (build_query sensor_ since location_) limit docs).

(** [api_timeseries] (lines 226-258). *)
Definition api_timeseries (req : Request) : M Response :=
  let sensor_ := args_get "sensor" req in
  if negb (truthy_opt sensor_) then
    ret (mkResponse 400 (BError "Missing required parameter: sensor"))
  else
    hours <- int_arg "hours" 24 req ;;
    limit <- int_arg "limit" 1000 req ;;
    let location_ := args_get "location" req in
    try_except_PyMongoError
      (_ <- get_collection ;;
       since <- since_hours hours ;;
       let query := build_query (match sensor_ with Some s => s | None => "" end)
                                since location_ in
       docs <- store_find query limit ;;
       let docs_sorted := stable_sort ts_le docs in
       ret (mkResponse 200 (BSeries docs_sorted)))
      (fun e => ret (mkResponse 500 (BError e))).

(** The handlers that answer a store failure with a fixed text
    ([register], lines 123-124, and [login], lines 149-150). *)
Definition generic_store_failure : Response :=
  mkResponse 500 (BError "Database error occurred").

(** Vocabulary of the statements below. *)

(** The request without its parameter [k]. *)
Definition remove_arg (k : string) (req : Request) : Request :=
  filter (fun kv => negb (String.eqb (fst kv) k)) req.



(** The world after the accesses [l] have been logged. *)
Definition logged (w : World) (l : list Access) : World :=
  {| MONGODB_URI := MONGODB_URI w;
     readings := readings w;
     clock := clock w;
     accesses := accesses w ++ l |}.

(** Ascending lexical order. *)
Definition ascending (l : list string) : Prop :=
  StronglySorted (fun a b => String.leb a b = true) l.

(** A series request that passes validation against a reachable store:
    its sensor is [s], its window starts at [since], its limit is
    [limit], and the collection holds [docs].  The limit is one that the
    cursor answers in full: it is not negative and it fits the wire
    format. *)
Definition series_request (req : Request) (w : World) (s : string)
  (since limit : Z) (docs : list Reading) : Prop :=
  args_get "sensor" req = Some s
  /\ truthy s = true
  /\ (exists h, int_arg "hours" 24 req w = (inr h, w)
                /\ hours_before (clock w) h = Some since)
  /\ int_arg "limit" 1000 req w = (inr limit, w)
  /\ truthy_opt (MONGODB_URI w) = true
  /\ readings w = Reachable docs
  /\ 0 <= limit <= int64_max.

(** A summary request against a reachable store holding [docs], whose
    24 hour window starts at [since]. *)
Definition summary_request (w : World) (since : Z) (docs : list Reading)
  : Prop :=
  truthy_opt (MONGODB_URI w) = true
  /\ readings w = Reachable docs
  /\ hours_before (clock w) 24 = Some since.

(** The reading [r] with its location replaced. *)
Definition with_location (f : Field string) (r : Reading) : Reading :=
  {| sensor := sensor r; value := value r; unit_ := unit_ r;
     timestamp := timestamp r; location := f |}.

(** The first half of the location filtering contract, for any supplied
    value: every reading returned carries exactly that location. *)
Definition supplied_location_filters : Prop :=
  forall req w loc out,
    args_get "location" req = Some loc ->
    fst (api_timeseries req w) = inr (mkResponse 200 (BSeries out)) ->
    forall r, In r out -> location r = Value loc.

(** The readings of sensor [X] whose timestamp is at least [since],
    whatever their location. *)
Definition window_of (since : Z) (X : string) (docs : list Reading)
  : list Reading :=
  filter (fun r => (since <=? timestamp r) && String.eqb (sensor r) X) docs.

(** A three-way comparison that is an order: swapping the arguments
    flips the answer, [Lt] is transitive, and elements that compare [Eq]
    compare alike with every third one. *)
Record Ordering {A : Type} (cmp : A -> A -> comparison) : Prop := {
  ord_antisym : forall a b, cmp a b = CompOpp (cmp b a);
  ord_lt_trans : forall a b c, cmp a b = Lt -> cmp b c = Lt -> cmp a c = Lt;
  ord_eq_l : forall a b c, cmp a b = Eq -> cmp a c = cmp b c
}.

(** Comparison by a first criterion, then by a second. *)
Definition lex {A : Type} (c1 c2 : A -> A -> comparison) (a b : A)
  : comparison :=
  match c1 a b with
  | Eq => c2 a b
  | c => c
  end.

(** Comparison of a field. *)
Definition by_field {A B : Type} (f : A -> B) (cmp : B -> B -> comparison)
  (a b : A) : comparison :=
  cmp (f a) (f b).

(** No stored location is the text that stands for a missing one. *)
Definition sentinel_free (docs : list Reading) : Prop :=
  forall r, In r docs -> location r <> Value "__none__".








(** A parameter that is present and that [int] rejects. *)
Definition rejected_int (k : string) (req : Request) : Prop :=
  exists s msg, args_get k req = Some s /\ py_int s = inl msg.

(** The ways in which a run of the series reader can end: the validation
    error, an [int] that fails, a missing connection string, a window
    start out of range, a store failure, a limit that the driver cannot
    encode, and the answer. *)
Inductive series_end (req : Request) (w : World)
  : (Exception + Response) * World -> Prop :=
| end_no_sensor :
    truthy_opt (args_get "sensor" req) = false ->
    series_end req w
      (inr (mkResponse 400 (BError "Missing required parameter: sensor")), w)
| end_bad_int s msg :
    args_get "sensor" req = Some s -> truthy s = true ->
    rejected_int "hours" req \/ rejected_int "limit" req ->
    series_end req w (inl (ValueError msg), w)
| end_no_uri s h n msg :
    args_get "sensor" req = Some s -> truthy s = true ->
    int_arg "hours" 24 req w = (inr h, w) ->
    int_arg "limit" 1000 req w = (inr n, w) ->
    truthy_opt (MONGODB_URI w) = false ->
    series_end req w (inl (ValueError msg), w)
| end_overflow s h n msg :
    args_get "sensor" req = Some s -> truthy s = true ->
    int_arg "hours" 24 req w = (inr h, w) ->
    int_arg "limit" 1000 req w = (inr n, w) ->
    truthy_opt (MONGODB_URI w) = true ->
    hours_before (clock w) h = None ->
    series_end req w (inl (OverflowError msg), logged w [Connect])
| end_store_failure s h n since err :
    args_get "sensor" req = Some s -> truthy s = true ->
    int_arg "hours" 24 req w = (inr h, w) ->
    int_arg "limit" 1000 req w = (inr n, w) ->
    truthy_opt (MONGODB_URI w) = true ->
    hours_before (clock w) h = Some since ->
    readings w = Unreachable err ->
    series_end req w
      (inr (mkResponse 500 (BError err)),
       logged w [Connect;
                 Find (build_query s since (args_get "location" req)) n])
| end_limit_overflow s h n since docs msg :
    args_get "sensor" req = Some s -> truthy s = true ->
    int_arg "hours" 24 req w = (inr h, w) ->
    int_arg "limit" 1000 req w = (inr n, w) ->
    truthy_opt (MONGODB_URI w) = true ->
    hours_before (clock w) h = Some since ->
    readings w = Reachable docs ->
    int64_max < Z.abs n ->
    series_end req w
      (inl (OverflowError msg),
       logged w [Connect;
                 Find (build_query s since (args_get "location" req)) n])
| end_answer s h n since docs :
    args_get "sensor" req = Some s -> truthy s = true ->
    int_arg "hours" 24 req w = (inr h, w) ->
    int_arg "limit" 1000 req w = (inr n, w) ->
    truthy_opt (MONGODB_URI w) = true ->
    hours_before (clock w) h = Some since ->
    readings w = Reachable docs ->
    Z.abs n <= int64_max ->
    series_end req w
      (inr (mkResponse 200
              (BSeries (timeseries_docs s since (args_get "location" req)
                          n docs))),
       logged w [Connect;
                 Find (build_query s since (args_get "location" req)) n]).

(* ================================================================== *)
(** * Accounts, sessions and the health probe *)
(* ================================================================== *)

(** Conventions of this part.
    - The [users] collection lives on the same server as the readings: it
      answers when [readings] is [Reachable] and fails with the same error
      when it is [Unreachable].  [find_one] returns the first match in
      natural order.
    - The body of a POST is a JSON object whose values are strings, given
      as the list of its pairs and read by its first binding.
    - [bcrypt] is a parameter: its two functions, the passwords that it
      refuses and the stored hashes that it cannot read (it raises
      [ValueError] on both).  [gensalt()] and the identifier that
      [insert_one] assigns are inputs of the request.
    - [login_user] records the user's identifier and the [remember] flag
      in the session. *)

(** [len(s)] for a text held as UTF-8: its code points are counted, that
    is, the bytes that are not continuation bytes. *)
Definition is_continuation (c : ascii) : bool :=
  let n := N_of_ascii c in (128 <=? n)%N && (n <? 192)%N.

Definition py_len (s : string) : Z :=
  Z.of_nat (List.length (filter (fun c => negb (is_continuation c))
                           (list_ascii_of_string s))).

(** [str.strip()] on UTF-8: the white space of Python is the ASCII one
    and U+0085, U+00A0, U+1680, U+2000 to U+200A, U+2028, U+2029, U+202F,
    U+205F and U+3000. *)
Definition byte_is (n : N) (c : ascii) : bool := (N_of_ascii c =? n)%N.

Definition space_tail_E2 (c2 c3 : ascii) : bool :=
  let b3 := N_of_ascii c3 in
  (byte_is 128 c2
   && (((128 <=? b3)%N && (b3 <=? 138)%N)
       || (b3 =? 168)%N || (b3 =? 169)%N || (b3 =? 175)%N))
  || (byte_is 129 c2 && (b3 =? 159)%N).

Definition space2 (c1 c2 : ascii) : bool :=
  byte_is 194 c1 && (byte_is 133 c2 || byte_is 160 c2).

Definition space3 (c1 c2 c3 : ascii) : bool :=
  (byte_is 225 c1 && byte_is 154 c2 && byte_is 128 c3)
  || (byte_is 226 c1 && space_tail_E2 c2 c3)
  || (byte_is 227 c1 && byte_is 128 c2 && byte_is 128 c3).

Fixpoint py_lstrip (cs : list ascii) : list ascii :=
  match cs with
  | [] => []
  | c1 :: cs1 =>
      if is_space c1 then py_lstrip cs1
      else
        match cs1 with
        | [] => cs
        | c2 :: cs2 =>
            if space2 c1 c2 then py_lstrip cs2
            else
              match cs2 with
              | [] => cs
              | c3 :: cs3 => if space3 c1 c2 c3 then py_lstrip cs3 else cs
              end
        end
  end.

(** The same from the right, on the reversed text. *)
Fixpoint py_rstrip_rev (cs : list ascii) : list ascii :=
  match cs with
  | [] => []
  | c1 :: cs1 =>
      if is_space c1 then py_rstrip_rev cs1
      else
        match cs1 with
        | [] => cs
        | c2 :: cs2 =>
            if space2 c2 c1 then py_rstrip_rev cs2
            else
              match cs2 with
              | [] => cs
              | c3 :: cs3 => if space3 c3 c2 c1 then py_rstrip_rev cs3 else cs
              end
        end
  end.

Definition py_strip (s : string) : string :=
  string_of_list_ascii
    (rev (py_rstrip_rev (rev (py_lstrip (list_ascii_of_string s))))).

(** [data.get(k, default)]. *)
Definition dict_get (k default : string) (data : list (string * string))
  : string :=
  match args_get k data with
  | Some v => v
  | None => default
  end.

(** [ObjectId(s)] for a [str]: a text of length 24 that [bytes.fromhex]
    accepts.  [bytes.fromhex] reads pairs of hexadecimal digits without
    regard to case and skips ASCII white space between the pairs, so the
    identifier may hold fewer than twelve bytes.  The identifier is held
    in the text form that [str] gives it, two lower case digits per byte;
    [None] stands for [InvalidId]. *)
Definition is_hex (c : ascii) : bool :=
  let n := N_of_ascii c in
  ((48 <=? n)%N && (n <=? 57)%N)
  || ((65 <=? n)%N && (n <=? 70)%N)
  || ((97 <=? n)%N && (n <=? 102)%N).

Definition lower_hex (c : ascii) : ascii :=
  let n := N_of_ascii c in
  if (65 <=? n)%N && (n <=? 70)%N then ascii_of_N (n + 32) else c.

Definition is_hex_blank (c : ascii) : bool :=
  let n := N_of_ascii c in
  ((9 <=? n)%N && (n <=? 13)%N) || (n =? 32)%N.

Fixpoint fromhex (cs : list ascii) : option (list ascii) :=
  match cs with
  | [] => Some []
  | c :: cs1 =>
      if is_hex_blank c then fromhex cs1
      else
        match cs1 with
        | d :: cs2 =>
            if is_hex c && is_hex d
            then option_map (fun bytes => lower_hex c :: lower_hex d :: bytes)
                   (fromhex cs2)
            else None
        | [] => None
        end
  end.

Definition ObjectId (s : string) : option string :=
  let cs := list_ascii_of_string s in
  if (List.length cs =? 24)%nat
  then option_map string_of_list_ascii (fromhex cs)
  else None.

(** A document of the [users] collection, as [register] writes it; [_id]
    is held in the text form that [str] gives it. *)
Record UserDoc : Type := mkUserDoc {
  user_id    : string;
  username   : string;
  email      : string;
  password   : string;
  created_at : Z
}.

(** The class [User] (lines 51-56). *)
Record User : Type := mkUser {
  id_of         : string;
  username_of   : string;
  email_of      : string;
  created_at_of : Z
}.

Definition User_init (user_data : UserDoc) : User :=
  {| id_of := user_id user_data;
     username_of := username user_data;
     email_of := email user_data;
     created_at_of := created_at user_data |}.

(** The module [bcrypt].  On a password that it refuses, [hashpw] and
    [checkpw] raise [ValueError] with the text that [refuses] gives; on a
    stored hash that it cannot read, [checkpw] raises it with the text
    that [unreadable] gives; a hash that [hashpw] made can be read. *)
Record Bcrypt : Type := mkBcrypt {
  hashpw     : string -> string -> string;
  checkpw    : string -> string -> bool;
  refuses    : string -> option string;
  unreadable : string -> option string;
  own_hash_readable : forall p salt, unreadable (hashpw p salt) = None
}.

(** A [bcrypt] for the examples: the hash is the password behind a
    prefix, a password of more than 72 bytes is refused, and a stored text
    that does not begin with the sign of the prefix cannot be read. *)
Definition example_bcrypt : Bcrypt :=
  {| hashpw := fun p salt => ("$2b$" ++ p)%string;
     checkpw := fun p h => String.eqb h ("$2b$" ++ p)%string;
     refuses := fun p =>
       if (72 <? String.length p)%nat
       then Some "password cannot be longer than 72 bytes"
       else None;
     unreadable := fun h =>
       match h with
       | String c _ =>
           if Ascii.eqb c "$"%char then None else Some "Invalid salt"
       | EmptyString => Some "Invalid salt"
       end;
     own_hash_readable := fun p salt => eq_refl |}.

Record Session : Type := mkSession {
  session_user_id  : string;
  session_remember : bool
}.

(** What a handler asks of the server besides the readings. *)
Inductive Call : Type :=
| Ping
| FindByNameOrEmail (name mail : string)
| FindById (oid : string)
| InsertOne (doc : UserDoc).

Record Site : Type := mkSite {
  world       : World;
  users       : list UserDoc;
  session     : option Session;
  gensalt     : string;
  inserted_id : string;
  calls       : list Call
}.

Definition SM (A : Type) : Type := Site -> (Exception + A) * Site.

Definition sret {A : Type} (a : A) : SM A := fun s => (inr a, s).

Definition sbind {A B : Type} (m : SM A) (k : A -> SM B) : SM B :=
  fun s =>
    match m s with
    | (inr a, s') => k a s'
    | (inl e, s') => (inl e, s')
    end.

Notation "x <~ m ;; k" := (sbind m (fun x => k))
  (at level 61, m at next level, right associativity).

(** A computation on the readings' world, run inside the site. *)
Definition lift {A : Type} (m : M A) : SM A :=
  fun s =>
    let (r, w') := m (world s) in
    (r, {| world := w'; users := users s; session := session s;
           gensalt := gensalt s; inserted_id := inserted_id s;
           calls := calls s |}).

(** [try: body except PyMongoError: handler]. *)
Definition strying {A : Type} (body : SM A) (handler : string -> SM A) : SM A :=
  fun s =>
    match body s with
    | (inl (PyMongoError msg), s') => handler msg s'
    | r => r
    end.

(** [try: body except Exception as e: handler(str(e))], and the bare
    [except:]. *)
Definition str_of_exception (e : Exception) : string :=
  match e with
  | PyMongoError msg => msg
  | ValueError msg => msg
  | OverflowError msg => msg
  end.

Definition strying_all {A : Type} (body : SM A) (handler : string -> SM A)
  : SM A :=
  fun s =>
    match body s with
    | (inl e, s') => handler (str_of_exception e) s'
    | r => r
    end.

Definition called (c : Call) (s : Site) : Site :=
  {| world := world s; users := users s; session := session s;
     gensalt := gensalt s; inserted_id := inserted_id s;
     calls := calls s ++ [c] |}.

(** One operation on the server that reads. *)
Definition server_read {A : Type} (c : Call) (f : list UserDoc -> A) : SM A :=
  fun s =>
    match readings (world s) with
    | Reachable _ => (inr (f (users s)), called c s)
    | Unreachable err => (inl (PyMongoError err), called c s)
    end.

(** [users_col.insert_one(user_data)]: the document enters the collection
    under the identifier the driver assigns, which is returned. *)
Definition insert_one (user_data : string -> UserDoc) : SM string :=
  fun s =>
    let doc := user_data (inserted_id s) in
    match readings (world s) with
    | Reachable _ =>
        (inr (inserted_id s),
         {| world := world s; users := users s ++ [doc];
            session := session s; gensalt := gensalt s;
            inserted_id := inserted_id s;
            calls := calls s ++ [InsertOne doc] |})
    | Unreachable err => (inl (PyMongoError err), called (InsertOne doc) s)
    end.

(** [get_users_collection] (lines 68-69). *)
Definition get_users_collection : SM unit := lift get_db.

(** [login_user(user, remember)]. *)
Definition login_user (user : User) (remember : bool) : SM unit :=
  fun s =>
    (inr tt,
     {| world := world s; users := users s;
        session := Some (mkSession (id_of user) remember);
        gensalt := gensalt s; inserted_id := inserted_id s;
        calls := calls s |}).

Inductive AuthRequest : Type :=
| GET
| POST (data : list (string * string)).

Inductive Reply : Type :=
| Json (r : Response)
| Success (redirect : string)
| Page (template mode : string)
| HealthReport (code : Z) (state mongo : string).

(** [{'$or': [{'username': name}, {'email': mail}]}]. *)
Definition name_or_email (name mail : string) (u : UserDoc) : bool :=
  String.eqb (username u) name || String.eqb (email u) mail.

(** [health] (lines 73-79). *)
Definition health : SM Reply :=
  strying_all
    (_ <~ lift get_db ;;
     _ <~ server_read Ping (fun _ => tt) ;;
     sret (HealthReport 200 "ok" "connected"))
    (fun e => sret (HealthReport 503 "degraded" ("error: " ++ e)%string)).

(** [load_user] (lines 59-66).  The [InvalidId] of a malformed identifier
    is rendered as a [ValueError]: the bare [except] catches it whatever
    its class. *)
Definition load_user (user_id_ : string) : SM (option User) :=
  strying_all
    (_ <~ lift get_db ;;
     match ObjectId user_id_ with
     | None => fun s => (inl (ValueError "InvalidId"), s)
     | Some oid =>
         user_data <~ server_read (FindById oid)
                        (find (fun u => String.eqb (user_id u) oid)) ;;
         sret (option_map User_init user_data)
     end)
    (fun _ => sret None).

(** [register] (lines 83-126). *)
Definition register (B : Bcrypt) (req : AuthRequest) : SM Reply :=
  match req with
  | POST data =>
      let username_ := py_strip (dict_get "username" "" data) in
      let email_ := py_strip (dict_get "email" "" data) in
      let password_ := dict_get "password" "" data in
      if negb (truthy username_) || negb (truthy email_)
         || negb (truthy password_)
      then sret (Json (mkResponse 400 (BError "All fields are required")))
      else if py_len password_ <? 6
      then sret (Json (mkResponse 400
                         (BError "Password must be at least 6 characters")))
      else
        strying
          (_ <~ get_users_collection ;;
           existing <~ server_read (FindByNameOrEmail username_ email_)
                         (find (name_or_email username_ email_)) ;;
           match existing with
           | Some _ =>
               sret (Json (mkResponse 400
                             (BError "Username or email already exists")))
           | None =>
               fun s =>
                 match refuses B password_ with
                 | Some msg => (inl (ValueError msg), s)
                 | None =>
                     let hashed_password := hashpw B password_ (gensalt s) in
                     let user_data oid :=
                       {| user_id := oid;
                          username := username_;
                          email := email_;
                          password := hashed_password;
                          created_at := clock (world s) |} in
                     (oid <~ insert_one user_data ;;
                      _ <~ login_user (User_init (user_data oid)) false ;;
                      sret (Success "/dashboard")) s
                 end
           end)
          (fun _ => sret (Json generic_store_failure))
  | GET => sret (Page "AUTH_HTML" "register")
  end.

(** [login] (lines 129-152). *)
Definition login (B : Bcrypt) (req : AuthRequest) : SM Reply :=
  match req with
  | POST data =>
      let username_ := py_strip (dict_get "username" "" data) in
      let password_ := dict_get "password" "" data in
      if negb (truthy username_) || negb (truthy password_)
      then sret (Json (mkResponse 400
                         (BError "Username and password are required")))
      else
        strying
          (_ <~ get_users_collection ;;
           user_data <~ server_read (FindByNameOrEmail username_ username_)
                          (find (name_or_email username_ username_)) ;;
           match user_data with
           | Some u =>
               match refuses B password_, unreadable B (password u) with
               | Some msg, _ | None, Some msg =>
                   fun s => (inl (ValueError msg), s)
               | None, None =>
                   if checkpw B password_ (password u)
                   then
                     _ <~ login_user (User_init u) true ;;
                     sret (Success "/dashboard")
                   else
                     sret (Json (mkResponse 401
                                   (BError "Invalid username or password")))
               end
           | None =>
               sret (Json (mkResponse 401
                             (BError "Invalid username or password")))
           end)
          (fun _ => sret (Json generic_store_failure))
  | GET => sret (Page "AUTH_HTML" "login")
  end.

(** Vocabulary for the accounts. *)

(** Usernames are pairwise distinct, and so are e-mail addresses. *)
Definition unique_users (us : list UserDoc) : Prop :=
  NoDup (map username us) /\ NoDup (map email us).

(** The server is configured and answers. *)
Definition server_up (s : Site) : Prop :=
  truthy_opt (MONGODB_URI (world s)) = true
  /\ exists docs, readings (world s) = Reachable docs.

(** The site once [get_db] has set up the client. *)
Definition connected (s : Site) : Site :=
  {| world := logged (world s) [Connect]; users := users s;
     session := session s; gensalt := gensalt s;
     inserted_id := inserted_id s; calls := calls s |}.

(** The document that [register] writes for the body [data]. *)
Definition new_user (B : Bcrypt) (data : list (string * string)) (s : Site)
  : UserDoc :=
  {| user_id := inserted_id s;
     username := py_strip (dict_get "username" "" data);
     email := py_strip (dict_get "email" "" data);
     password := hashpw B (dict_get "password" "" data) (gensalt s);
     created_at := clock (world s) |}.

(** The site after [register] has written [doc] and logged its user in. *)
Definition registered (doc : UserDoc) (s : Site) : Site :=
  {| world := logged (world s) [Connect];
     users := users s ++ [doc];
     session := Some (mkSession (user_id doc) false);
     gensalt := gensalt s;
     inserted_id := inserted_id s;
     calls := calls s
              ++ [FindByNameOrEmail (username doc) (email doc); InsertOne doc] |}.

(** The site after [login] has found [u] and logged it in. *)
Definition logged_in (name : string) (u : UserDoc) (s : Site) : Site :=
  {| world := logged (world s) [Connect];
     users := users s;
     session := Some (mkSession (user_id u) true);
     gensalt := gensalt s;
     inserted_id := inserted_id s;
     calls := calls s ++ [FindByNameOrEmail name name] |}.

(** A body that passes the validation of [register]. *)
Definition valid_registration (data : list (string * string)) : Prop :=
  truthy (py_strip (dict_get "username" "" data)) = true
  /\ truthy (py_strip (dict_get "email" "" data)) = true
  /\ truthy (dict_get "password" "" data) = true
  /\ 6 <= py_len (dict_get "password" "" data).

(** A body that passes the validation of [login]. *)
Definition valid_login (data : list (string * string)) : Prop :=
  truthy (py_strip (dict_get "username" "" data)) = true
  /\ truthy (dict_get "password" "" data) = true.

(* ================================================================== *)
(** * The model on concrete inputs *)
(* ================================================================== *)

Example ascii_int_accepts :
  ascii_int "24" = inr 24 /\ ascii_int " 12 " = inr 12
  /\ ascii_int "-5" = inr (-5) /\ ascii_int "+7" = inr 7
  /\ ascii_int "1_000" = inr 1000 /\ ascii_int "007" = inr 7.
Proof. repeat split. Qed.

Example ascii_int_rejects :
  ascii_decimal "" = None /\ ascii_decimal "ten" = None
  /\ ascii_decimal "1.5" = None /\ ascii_decimal "1__0" = None
  /\ ascii_decimal "_1" = None /\ ascii_decimal "1_" = None
  /\ ascii_decimal "- 1" = None /\ ascii_decimal "0x10" = None
  /\ ascii_int "ten" = inl "invalid literal for int() with base 10: 'ten'".
Proof. repeat split. Qed.

Example hours_before_day :
  hours_before 1700000000000 24 = Some 1699913600000
  /\ hours_before 1700000000000 (-5) = Some 1700018000000
  /\ hours_before 1700000000000 100000000000 = None.
Proof. repeat split. Qed.

Example args_get_first_value :
  args_get "limit" [("sensor", "soil"); ("limit", "5"); ("limit", "9")]
  = Some "5".
Proof. reflexivity. Qed.

Example sorted_str_lexical :
  sorted_str ["soil"; "Temp"; "humidity"; "so"] = ["Temp"; "humidity"; "so"; "soil"].
Proof. reflexivity. Qed.

Example api_sensors_empty_store :
  fst (api_sensors (mkWorld (Some "mongodb://db") (Reachable []) 1700000000000 []))
  = inr (mkResponse 200 (BDimensions [] [])).
Proof. reflexivity. Qed.

Example api_sensors_without_uri :
  exists msg,
    fst (api_sensors (mkWorld None (Reachable []) 1700000000000 []))
    = inl (ValueError msg).
Proof. eexists. reflexivity. Qed.

Example py_strip_blanks :
  py_strip "  bob " = "bob" /\ py_strip "a  b" = "a  b" /\ py_strip "   " = ""
  /\ py_strip "" = ""
  /\ py_strip (String (ascii_of_N 9) (String (ascii_of_N 10) "bob")) = "bob".
Proof. repeat split. Qed.

Example py_strip_unicode_blanks :
  let nbsp := String (ascii_of_N 194) (String (ascii_of_N 160) "") in
  let em_space :=
    String (ascii_of_N 226) (String (ascii_of_N 128) (String (ascii_of_N 131) "")) in
  let e_acute := String (ascii_of_N 195) (String (ascii_of_N 169) "") in
  py_strip (nbsp ++ "bob" ++ em_space)%string = "bob"
  /\ py_strip (e_acute ++ " ")%string = e_acute.
Proof. split; reflexivity. Qed.

Example py_len_counts_code_points :
  let e_acute := String (ascii_of_N 195) (String (ascii_of_N 169) "") in
  py_len "hunter22" = 8 /\ py_len "" = 0
  /\ py_len ("p" ++ e_acute ++ "ssw")%string = 5.
Proof. repeat split. Qed.

Example ObjectId_examples :
  ObjectId "65A0000000000000000000b2" = Some "65a0000000000000000000b2"
  /\ ObjectId "65a0" = None
  /\ ObjectId "65a0000000000000000000bz" = None
  /\ ObjectId "65 a0 00 00 00 00 00 0A " = Some "65a000000000000a"
  /\ ObjectId "65a0 0000 0000 0000 00b2" = Some "65a000000000000000b2"
  /\ ObjectId "65 a00000000000000000000" = None
  /\ ObjectId "6 5a0000000000000000000b" = None
  /\ ObjectId "65a0000000000000000000b " = None
  /\ ObjectId "                        " = Some "".
Proof. repeat split. Qed.

(* ================================================================== *)
(** * Effects of the handlers *)
(* ================================================================== *)

(** Propositional reasoning that leaves the parameters of the model out
    of the proof. *)
Ltac propositional :=
  try clear py_int; try clear store_avg; try clear first_batch; tauto.

Section StateFrame.

















End StateFrame.

(** Request parameters. *)

Lemma args_get_remove_same k req : args_get k (remove_arg k req) = None.
Proof.
  induction req as [| [k' v] req IH]; simpl; [reflexivity |].
  destruct (String.eqb k' k) eqn:E; simpl; [exact IH |].
  rewrite E. exact IH.
Qed.

Lemma args_get_remove_other k k' req :
  k' <> k -> args_get k' (remove_arg k req) = args_get k' req.
Proof.
  intros Hne.
  induction req as [| [k0 v] req IH]; simpl; [reflexivity |].
  destruct (String.eqb k0 k) eqn:E; simpl.
  - apply String.eqb_eq in E; subst k0.
    destruct (String.eqb k k') eqn:E'; [| exact IH].
    apply String.eqb_eq in E'; congruence.
  - destruct (String.eqb k0 k'); [reflexivity | exact IH].
Qed.

(** [api_timeseries] past its validation of [sensor]. *)
Lemma api_timeseries_with_sensor req s :
  args_get "sensor" req = Some s -> truthy s = true ->
  api_timeseries req
  = (hours <- int_arg "hours" 24 req ;;
     limit <- int_arg "limit" 1000 req ;;
     try_except_PyMongoError
       (_ <- get_collection ;;
        since <- since_hours hours ;;
        docs <- store_find
                  (build_query s since (args_get "location" req)) limit ;;
        ret (mkResponse 200 (BSeries (stable_sort ts_le docs))))
       (fun e => ret (mkResponse 500 (BError e)))).
Proof.
  intros Hs Ht. unfold api_timeseries.
  rewrite Hs. cbn [truthy_opt]. rewrite Ht. reflexivity.
Qed.

(** What [api_timeseries] does once its parameters have been read, the
    connection string is set and the start of the window is in range. *)
Lemma api_timeseries_parsed req w s h n since :
  args_get "sensor" req = Some s -> truthy s = true ->
  int_arg "hours" 24 req w = (inr h, w) ->
  int_arg "limit" 1000 req w = (inr n, w) ->
  truthy_opt (MONGODB_URI w) = true ->
  hours_before (clock w) h = Some since ->
  api_timeseries req w
  = (match readings w with
     | Unreachable err => inr (mkResponse 500 (BError err))
     | Reachable docs =>
         if Z.abs n <=? int64_max
         then inr (mkResponse 200
                     (BSeries (timeseries_docs s since
                                 (args_get "location" req) n docs)))
         else inl (OverflowError "MongoDB can only handle up to 8-byte ints")
     end,
     logged w [Connect;
               Find (build_query s since (args_get "location" req)) n]).
Proof.
  intros Hs Ht Hh Hn Hu Hc.
  rewrite (api_timeseries_with_sensor req s Hs Ht).
  unfold bind at 1. rewrite Hh. unfold bind at 1. rewrite Hn.
  unfold store_find, try_except_PyMongoError, bind, get_collection, get_db,
    since_hours, log, ret.
  rewrite Hu; simpl. rewrite Hc; simpl.
  unfold logged. rewrite <- app_assoc.
  destruct (readings w) as [docs | err]; simpl; [| reflexivity].
  destruct (Z.abs n <=? int64_max); reflexivity.
Qed.

Lemma api_timeseries_healthy req w s h n docs since :
  args_get "sensor" req = Some s -> truthy s = true ->
  int_arg "hours" 24 req w = (inr h, w) ->
  int_arg "limit" 1000 req w = (inr n, w) ->
  truthy_opt (MONGODB_URI w) = true ->
  readings w = Reachable docs ->
  hours_before (clock w) h = Some since ->
  Z.abs n <= int64_max ->
  api_timeseries req w
  = (inr (mkResponse 200
            (BSeries (timeseries_docs s since (args_get "location" req) n docs))),
     logged w [Connect;
               Find (build_query s since (args_get "location" req)) n]).
Proof.
  intros Hs Ht Hh Hn Hu Hr Hc Hfit. apply Z.leb_le in Hfit.
  rewrite (api_timeseries_parsed req w s h n since Hs Ht Hh Hn Hu Hc).
  now rewrite Hr, Hfit.
Qed.

(* ================================================================== *)
(** * Validation and failure paths of the series reader *)
(* ================================================================== *)

(** C4.  A request to the windowed series reader without the [sensor]
    parameter is answered at once with the client error (status 400 and
    the message of line 237), and the world is returned as it was found:
    the log of store accesses has not grown, whatever the state of the
    store. *)
Theorem timeseries_missing_sensor_rejected_before_store :
  forall (req : Request) (w : World),
    args_get "sensor" req = None ->
    fst (api_timeseries req w)
    = inr (mkResponse 400 (BError "Missing required parameter: sensor"))
    /\ snd (api_timeseries req w) = w
    /\ accesses (snd (api_timeseries req w)) = accesses w.
Proof.
  intros req w Hmiss.
  unfold api_timeseries. rewrite Hmiss. simpl.
  repeat split; reflexivity.
Qed.


(* ================================================================== *)
(** * Store failures *)
(* ================================================================== *)

(** C5.  When the store fails, each of the three handlers answers with
    status 500 and a body whose [error] field is the text of the caught
    exception, whatever that text is: with an error text that names the
    host, the answer differs from the fixed message that [register] and
    [login] give on the same failure. *)
Theorem store_failure_body_is_exception_text :
  forall (c : ascii) (uri err : string) (lg : list Access),
    let w := mkWorld (Some (String c uri)) (Unreachable err) 1700000000000 lg in
    fst (api_sensors w) = inr (mkResponse 500 (BError err))
    /\ fst (api_summary w) = inr (mkResponse 500 (BError err))
    /\ fst (api_timeseries [("sensor", "soil_moisture")] w)
       = inr (mkResponse 500 (BError err))
    /\ fst (api_sensors
              (mkWorld (Some (String c uri))
                 (Unreachable "db.internal:27017: [Errno 111] Connection refused")
                 1700000000000 lg))
       <> inr generic_store_failure.
Proof.
  intros c uri err lg w. unfold w.
  repeat split; try reflexivity.
  cbv. intros H. discriminate H.
Qed.

(* ================================================================== *)
(** * Lists: sorting, distinct values, groups *)
(* ================================================================== *)

Section Sorting.

Context {A : Type}.
Variable le : A -> A -> bool.

Let R (a b : A) : Prop := le a b = true.

Lemma insert_sorted_perm x l : Permutation (insert_sorted le x l) (x :: l).
Proof.
  induction l as [| y l IH]; simpl; [reflexivity |].
  destruct (le x y); [reflexivity |].
  rewrite IH. apply perm_swap.
Qed.

Lemma stable_sort_perm l : Permutation (stable_sort le l) l.
Proof.
  induction l as [| x l IH]; simpl; [reflexivity |].
  rewrite insert_sorted_perm. now constructor.
Qed.

Lemma stable_sort_In x l : In x (stable_sort le l) <-> In x l.
Proof.
  split; apply Permutation_in;
    [apply stable_sort_perm | symmetry; apply stable_sort_perm].
Qed.

Lemma stable_sort_length l : List.length (stable_sort le l) = List.length l.
Proof. apply Permutation_length, stable_sort_perm. Qed.

Hypothesis le_total : forall a b, le a b = true \/ le b a = true.
Hypothesis le_trans : forall a b c, le a b = true -> le b c = true -> le a c = true.

Lemma insert_sorted_strongly x l :
  StronglySorted R l -> StronglySorted R (insert_sorted le x l).
Proof using le_total le_trans.
  induction 1 as [| y l Hs IH Hall]; simpl.
  - repeat constructor.
  - destruct (le x y) eqn:Hxy.
    + constructor; [constructor; assumption |].
      constructor; [exact Hxy |].
      eapply Forall_impl; [| exact Hall].
      intros z Hyz. exact (le_trans _ _ _ Hxy Hyz).
    + constructor; [exact IH |].
      assert (Hyx : le y x = true).
      { destruct (le_total x y) as [H | H]; [congruence | exact H]. }
      eapply Permutation_Forall;
        [symmetry; apply insert_sorted_perm |].
      constructor; assumption.
Qed.

Lemma stable_sort_strongly l : StronglySorted R (stable_sort le l).
Proof using le_total le_trans.
  induction l as [| x l IH]; simpl; [constructor |].
  apply insert_sorted_strongly, IH.
Qed.

(** In a sorted list, what comes first is below what comes later. *)
Lemma strongly_sorted_app l1 l2 :
  StronglySorted R (l1 ++ l2) ->
  forall a b, In a l1 -> In b l2 -> le a b = true.
Proof.
  induction l1 as [| x l1 IH]; simpl; intros Hs a b Ha Hb; [contradiction |].
  apply StronglySorted_inv in Hs as [Hs Hall].
  destruct Ha as [-> | Ha].
  - rewrite Forall_forall in Hall. apply Hall, in_or_app. now right.
  - now apply IH.
Qed.

(** A sorted list is determined by its elements when no two distinct
    elements of it are below each other. *)
Lemma strongly_sorted_unique l l' :
  (forall a b, In a l -> In b l -> le a b = true -> le b a = true -> a = b) ->
  StronglySorted R l -> StronglySorted R l' -> Permutation l l' -> l = l'.
Proof.
  revert l'. induction l as [| x l IH]; intros l' Hanti Hs Hs' Hp.
  - apply Permutation_nil in Hp. now subst.
  - destruct l' as [| y l'].
    { symmetry in Hp. now apply Permutation_nil in Hp. }
    apply StronglySorted_inv in Hs as [Hs Hall].
    apply StronglySorted_inv in Hs' as [Hs' Hall'].
    rewrite Forall_forall in Hall, Hall'.
    assert (Hxy : x = y).
    { assert (Hy : In y (x :: l))
        by (eapply Permutation_in; [symmetry; exact Hp | now left]).
      assert (Hx : In x (y :: l'))
        by (eapply Permutation_in; [exact Hp | now left]).
      destruct Hy as [Hy | Hy]; [exact Hy |].
      destruct Hx as [Hx | Hx]; [now symmetry |].
      apply Hanti; [now left | now right | now apply Hall | now apply Hall']. }
    subst y. f_equal.
    apply IH; [| assumption | assumption | eapply Permutation_cons_inv; exact Hp].
    intros a b Ha Hb. apply Hanti; now right.
Qed.

End Sorting.

Lemma strongly_sorted_impl {A : Type} (R R' : A -> A -> Prop) l :
  (forall a b, R a b -> R' a b) -> StronglySorted R l -> StronglySorted R' l.
Proof.
  intros Himp. induction 1 as [| x l Hs IH Hall]; constructor; [exact IH |].
  eapply Forall_impl; [| exact Hall]. intros b. apply Himp.
Qed.

Section Distinct.

Context {A : Type}.
Variable eqb : A -> A -> bool.
Hypothesis eqb_spec : forall a b, eqb a b = true <-> a = b.

Lemma distinct_In x l : In x (distinct eqb l) <-> In x l.
Proof using eqb_spec.
  induction l as [| y l IH]; simpl; [propositional |].
  rewrite filter_In, IH.
  destruct (eqb y x) eqn:E.
  - apply eqb_spec in E. subst y. simpl. split; intros _; now left.
  - simpl. split.
    + intros [H | [H _]]; [now left | now right].
    + intros [H | H]; [now left | right; now split].
Qed.

Lemma distinct_NoDup l : NoDup (distinct eqb l).
Proof using eqb_spec.
  induction l as [| y l IH]; simpl; constructor.
  - rewrite filter_In. intros [_ H].
    assert (E : eqb y y = true) by now apply eqb_spec.
    rewrite E in H. discriminate.
  - now apply NoDup_filter.
Qed.

Lemma distinct_nil_inv l : distinct eqb l = [] -> l = [].
Proof. destruct l; simpl; [reflexivity | discriminate]. Qed.

End Distinct.

(** The order of [sorted] on strings. *)

Lemma ascii_compare_refl a : Ascii.compare a a = Eq.
Proof. unfold Ascii.compare. apply N.compare_refl. Qed.

Lemma ascii_compare_lt_trans a b c :
  Ascii.compare a b = Lt -> Ascii.compare b c = Lt -> Ascii.compare a c = Lt.
Proof.
  unfold Ascii.compare. rewrite !N.compare_lt_iff. apply N.lt_trans.
Qed.

Lemma string_compare_refl s : String.compare s s = Eq.
Proof.
  induction s as [| a s IH]; simpl; [reflexivity |].
  now rewrite ascii_compare_refl.
Qed.

Lemma string_compare_lt_trans s1 :
  forall s2 s3,
    String.compare s1 s2 = Lt -> String.compare s2 s3 = Lt ->
    String.compare s1 s3 = Lt.
Proof.
  induction s1 as [| a s1 IH]; intros [| b s2] [| c s3]; simpl;
    try discriminate; try reflexivity.
  destruct (Ascii.compare a b) eqn:Hab; try discriminate;
    destruct (Ascii.compare b c) eqn:Hbc; try discriminate; intros H1 H2.
  - apply Ascii.compare_eq_iff in Hab, Hbc. subst.
    rewrite ascii_compare_refl. eapply IH; eassumption.
  - apply Ascii.compare_eq_iff in Hab. subst. now rewrite Hbc.
  - apply Ascii.compare_eq_iff in Hbc. subst. now rewrite Hab.
  - now rewrite (ascii_compare_lt_trans _ _ _ Hab Hbc).
Qed.

Lemma string_leb_trans a b c :
  String.leb a b = true -> String.leb b c = true -> String.leb a c = true.
Proof.
  unfold String.leb.
  destruct (String.compare a b) eqn:Hab; try discriminate;
    destruct (String.compare b c) eqn:Hbc; try discriminate; intros _ _.
  - apply String.compare_eq_iff in Hab, Hbc. subst.
    now rewrite string_compare_refl.
  - apply String.compare_eq_iff in Hab. subst. now rewrite Hbc.
  - apply String.compare_eq_iff in Hbc. subst. now rewrite Hab.
  - now rewrite (string_compare_lt_trans _ _ _ Hab Hbc).
Qed.

Lemma sorted_str_ascending l :
  StronglySorted (fun a b => String.leb a b = true) (sorted_str l).
Proof.
  apply stable_sort_strongly; [apply String.leb_total | apply string_leb_trans].
Qed.

Lemma sorted_str_In x l : In x (sorted_str l) <-> In x l.
Proof. apply stable_sort_In. Qed.

Lemma sorted_str_NoDup l : NoDup l -> NoDup (sorted_str l).
Proof.
  apply Permutation_NoDup. symmetry. apply stable_sort_perm.
Qed.

(** Distinct values of the two dimensions. *)

Lemma option_string_eqb_spec a b : option_string_eqb a b = true <-> a = b.
Proof.
  destruct a as [x |], b as [y |]; simpl; try (split; congruence).
  rewrite String.eqb_eq. split; congruence.
Qed.

Lemma distinct_sensor_In s docs :
  In s (distinct_sensor docs) <-> exists r, In r docs /\ sensor r = s.
Proof.
  unfold distinct_sensor. rewrite (distinct_In _ String.eqb_eq), in_map_iff.
  split; intros (r & H1 & H2); exists r; propositional.
Qed.

Lemma keep_truthy_In l values :
  In l (keep_truthy values) <-> In (Some l) values /\ l <> "".
Proof.
  unfold keep_truthy. rewrite in_flat_map. split.
  - intros ([x |] & Hin & Hx); [| contradiction].
    destruct x as [| c x]; simpl in Hx; [contradiction |].
    destruct Hx as [<- | []]. split; [exact Hin | discriminate].
  - intros [Hin Hne]. exists (Some l). split; [exact Hin |].
    destruct l; [congruence | now left].
Qed.

Lemma keep_truthy_NoDup values : NoDup values -> NoDup (keep_truthy values).
Proof.
  induction 1 as [| v values Hnin Hnd IH]; simpl; [constructor |].
  destruct v as [l |]; [| exact IH].
  destruct (truthy l) eqn:Ht; [| exact IH].
  simpl. constructor; [| exact IH].
  rewrite keep_truthy_In. propositional.
Qed.

Lemma distinct_location_In l docs :
  In (Some l) (distinct_location docs)
  <-> exists r, In r docs /\ location r = Value l.
Proof.
  unfold distinct_location.
  rewrite (distinct_In _ option_string_eqb_spec), in_flat_map.
  split; intros (r & Hin & H); exists r; (split; [exact Hin |]).
  - unfold location_values in H. destruct (location r); simpl in H;
      try propositional; destruct H as [H | []]; congruence.
  - unfold location_values. rewrite H. now left.
Qed.

(* ================================================================== *)
(** * The dimension lister *)
(* ================================================================== *)

Lemma api_sensors_healthy w docs :
  truthy_opt (MONGODB_URI w) = true ->
  readings w = Reachable docs ->
  api_sensors w
  = (inr (mkResponse 200
            (BDimensions (sorted_str (distinct_sensor docs))
               (sorted_str (keep_truthy (distinct_location docs))))),
     logged w [Connect; Distinct "sensor"; Distinct "location"]).
Proof.
  intros Hu Hr.
  unfold api_sensors, try_except_PyMongoError, bind, get_collection, get_db,
    store_op, log, ret.
  rewrite Hu; simpl. rewrite Hr; simpl.
  unfold logged. rewrite Hr, <- !app_assoc. reflexivity.
Qed.

(** C8.  With the store reachable, the dimension lister answers 200 with
    two lists.  [sensors] holds exactly the sensor values that occur in
    the store, [locations] exactly the location values that occur and are
    not the empty string (a missing or [null] location contributes
    nothing); neither list repeats a value and both are in ascending
    lexical order.  On an empty store both lists are empty. *)
Theorem dimension_lister_distinct_sorted :
  forall (w : World) (docs : list Reading),
    truthy_opt (MONGODB_URI w) = true ->
    readings w = Reachable docs ->
    exists sensors locations,
      fst (api_sensors w) = inr (mkResponse 200 (BDimensions sensors locations))
      /\ (forall s, In s sensors <-> exists r, In r docs /\ sensor r = s)
      /\ (forall l, In l locations
                    <-> exists r, In r docs /\ location r = Value l /\ l <> "")
      /\ NoDup sensors /\ NoDup locations
      /\ ascending sensors /\ ascending locations
      /\ (docs = [] -> sensors = [] /\ locations = []).
Proof.
  intros w docs Hu Hr.
  exists (sorted_str (distinct_sensor docs)),
         (sorted_str (keep_truthy (distinct_location docs))).
  rewrite (api_sensors_healthy w docs Hu Hr).
  split; [reflexivity |].
  split; [intros s; rewrite sorted_str_In; apply distinct_sensor_In |].
  split.
  { intros l. rewrite sorted_str_In, keep_truthy_In, distinct_location_In.
    split.
    - intros [(r & Hin & Hl) Hne]. exists r. propositional.
    - intros (r & Hin & Hl & Hne). split; [exists r; propositional | exact Hne]. }
  split.
  { apply sorted_str_NoDup. unfold distinct_sensor.
    apply (distinct_NoDup _ String.eqb_eq). }
  split.
  { apply sorted_str_NoDup, keep_truthy_NoDup. unfold distinct_location.
    apply (distinct_NoDup _ option_string_eqb_spec). }
  split; [apply sorted_str_ascending |].
  split; [apply sorted_str_ascending |].
  intros ->. split; reflexivity.
Qed.

Lemma dimension_lister_distinct_sorted_witness :
  let docs := [mkReading "temperature" (21 # 1) None 1699999990000 (Value "field-2");
               mkReading "soil_moisture" (34 # 1) None 1699999991000 (Value "");
               mkReading "soil_moisture" (35 # 1) None 1699999992000 Null;
               mkReading "temperature" (22 # 1) None 1699999993000 (Value "field-1");
               mkReading "humidity" (60 # 1) None 1699999994000 Absent] in
  let w := mkWorld (Some "mongodb://db") (Reachable docs) 1700000000000 [] in
  exists sensors locations,
    fst (api_sensors w) = inr (mkResponse 200 (BDimensions sensors locations))
    /\ (forall s, In s sensors <-> exists r, In r docs /\ sensor r = s)
    /\ (forall l, In l locations
                  <-> exists r, In r docs /\ location r = Value l /\ l <> "")
    /\ NoDup sensors /\ NoDup locations
    /\ ascending sensors /\ ascending locations
    /\ (docs = [] -> sensors = [] /\ locations = []).
Proof.
  intros docs w.
  apply (dimension_lister_distinct_sorted w docs); reflexivity.
Defined.

(* ================================================================== *)
(** * The windowed series reader *)
(* ================================================================== *)

Lemma series_request_run req w s since limit docs :
  series_request req w s since limit docs ->
  api_timeseries req w
  = (inr (mkResponse 200
            (BSeries (timeseries_docs s since (args_get "location" req)
                        limit docs))),
     logged w [Connect;
               Find (build_query s since (args_get "location" req)) limit]).
Proof.
  intros (Hs & Ht & (h & Hh & Hc) & Hl & Hu & Hr & Hfit).
  apply (api_timeseries_healthy req w s h limit docs since); try assumption.
  lia.
Qed.

Lemma ts_ge_total a b : ts_ge a b = true \/ ts_ge b a = true.
Proof. unfold ts_ge. rewrite !Z.leb_le. lia. Qed.

Lemma ts_ge_trans a b c :
  ts_ge a b = true -> ts_ge b c = true -> ts_ge a c = true.
Proof. unfold ts_ge. rewrite !Z.leb_le. lia. Qed.

Lemma ts_le_total a b : ts_le a b = true \/ ts_le b a = true.
Proof. unfold ts_le. rewrite !Z.leb_le. lia. Qed.

Lemma ts_le_trans a b c :
  ts_le a b = true -> ts_le b c = true -> ts_le a c = true.
Proof. unfold ts_le. rewrite !Z.leb_le. lia. Qed.

Lemma firstn_In {A} k (l : list A) x : In x (firstn k l) -> In x l.
Proof.
  intros H. rewrite <- (firstn_skipn k l). apply in_or_app. now left.
Qed.

Lemma cursor_limit_In n l x : In x (cursor_limit n l) -> In x l.
Proof.
  unfold cursor_limit. destruct (n =? 0); [trivial |].
  destruct (0 <? n); apply firstn_In.
Qed.

(** A limit that is not negative drops nothing when it is zero or when
    the documents are no more than it allows. *)
Lemma cursor_limit_all n l :
  0 <= n ->
  n = 0 \/ Z.of_nat (List.length l) <= Z.abs n -> cursor_limit n l = l.
Proof.
  intros Hpos H. unfold cursor_limit.
  destruct (Z.eqb_spec n 0) as [| Hn]; [reflexivity |].
  destruct (Z.ltb_spec 0 n); [| lia].
  apply firstn_all2. lia.
Qed.

Lemma timeseries_docs_In s since loc limit docs r :
  In r (timeseries_docs s since loc limit docs) ->
  In r docs /\ matches (build_query s since loc) r = true.
Proof.
  unfold timeseries_docs, find_sort_limit.
  rewrite stable_sort_In. intros H. apply cursor_limit_In in H.
  rewrite stable_sort_In, filter_In in H. exact H.
Qed.

Lemma timeseries_docs_ascending s since loc limit docs :
  StronglySorted (fun a b => timestamp a <= timestamp b)
    (timeseries_docs s since loc limit docs).
Proof.
  unfold timeseries_docs.
  eapply strongly_sorted_impl;
    [| apply (stable_sort_strongly ts_le ts_le_total ts_le_trans)].
  intros a b H. unfold ts_le in H. now apply Z.leb_le.
Qed.

Lemma matches_location_free s since r f :
  matches (build_query s since None) (with_location f r)
  = matches (build_query s since None) r.
Proof. reflexivity. Qed.

Lemma timeseries_docs_complete s since loc limit docs r :
  0 <= limit ->
  limit = 0
  \/ Z.of_nat (List.length (filter (matches (build_query s since loc)) docs))
     <= Z.abs limit ->
  In r docs -> matches (build_query s since loc) r = true ->
  In r (timeseries_docs s since loc limit docs).
Proof.
  intros Hpos Hlim Hin Hm. unfold timeseries_docs, find_sort_limit.
  rewrite stable_sort_In.
  rewrite cursor_limit_all;
    [| exact Hpos | now rewrite stable_sort_length].
  rewrite stable_sort_In, filter_In. now split.
Qed.

(** The location filter of a query without a [location] key, spelled
    out. *)
Lemma filter_matches_no_location s since docs :
  filter (matches (build_query s since None)) docs
  = filter (fun r => String.eqb (sensor r) s && (since <=? timestamp r)) docs.
Proof.
  apply filter_ext. intros a. unfold matches, build_query. simpl.
  apply andb_true_r.
Qed.

Lemma matches_no_location s since r :
  matches (build_query s since None) r = true
  <-> sensor r = s /\ since <= timestamp r.
Proof.
  unfold matches, build_query. simpl.
  rewrite andb_true_r, andb_true_iff, String.eqb_eq, Z.leb_le. propositional.
Qed.

(** C7 (amended).  A series request that passes validation against a
    reachable store is answered 200 with a list [out].  When the request
    supplies a non-empty [location], every reading of [out] carries
    exactly that location.  When [location] is omitted, whether a reading
    matches does not depend on its location, and, unless the limit
    truncates, every reading of the sensor inside the window is returned,
    whatever its location. *)
Theorem timeseries_location_filter :
  forall (req : Request) (w : World) (s : string) (since limit : Z)
         (docs : list Reading),
    series_request req w s since limit docs ->
    exists out,
      fst (api_timeseries req w) = inr (mkResponse 200 (BSeries out))
      /\ (forall loc,
            args_get "location" req = Some loc -> loc <> "" ->
            forall r, In r out -> location r = Value loc)
      /\ (args_get "location" req = None ->
          (forall r f,
             matches (build_query s since (args_get "location" req))
               (with_location f r)
             = matches (build_query s since (args_get "location" req)) r)
          /\ (limit = 0
              \/ Z.of_nat (List.length
                             (filter (fun r => String.eqb (sensor r) s
                                               && (since <=? timestamp r))
                                docs))
                 <= Z.abs limit ->
              forall r, In r docs -> sensor r = s -> since <= timestamp r ->
                        In r out)).
Proof.
  intros req w s since limit docs Hreq.
  exists (timeseries_docs s since (args_get "location" req) limit docs).
  rewrite (series_request_run _ _ _ _ _ _ Hreq).
  split; [reflexivity |]. split.
  - intros loc Hloc Hne r Hin. rewrite Hloc in Hin.
    apply timeseries_docs_In in Hin as [_ Hm].
    unfold matches, build_query in Hm.
    destruct loc as [| c loc]; [congruence |]. simpl in Hm.
    apply andb_prop in Hm as [_ Hm]. unfold location_is in Hm.
    destruct (location r) as [| | l]; try discriminate.
    apply String.eqb_eq in Hm. now subst.
  - intros Hnone. rewrite Hnone. split.
    + intros r f. apply matches_location_free.
    + intros Hlim r Hin Hs Ht.
      destruct Hreq as (_ & _ & _ & _ & _ & _ & Hfit).
      apply timeseries_docs_complete;
        [lia | now rewrite filter_matches_no_location | exact Hin |].
      now apply matches_no_location.
Qed.

(** C9.  A [location] parameter that is present but empty is treated as
    an omitted one.  The handler run is the same as on the request without
    the parameter; the query carries no [location] key, and a reading
    matches it whatever its location, missing ones included.  For a
    series request that passes validation against a reachable store, the
    [find] that is sent carries no location, the answer holds only stored
    readings of the sensor inside the window, and, unless the limit
    truncates, it holds every such reading, wherever it is located and
    also when it has no location. *)
Theorem timeseries_empty_location_is_omitted :
  forall (req : Request) (w : World),
    args_get "location" req = Some "" ->
    api_timeseries req w = api_timeseries (remove_arg "location" req) w
    /\ (forall s since,
          build_query s since (args_get "location" req) = mkQuery s since None)
    /\ (forall s since r,
          matches (build_query s since (args_get "location" req)) r
          = String.eqb (sensor r) s && (since <=? timestamp r))
    /\ (forall s since limit docs,
          series_request req w s since limit docs ->
          exists out,
            api_timeseries req w
            = (inr (mkResponse 200 (BSeries out)),
               logged w [Connect; Find (mkQuery s since None) limit])
            /\ (forall r, In r out ->
                  In r docs /\ sensor r = s /\ since <= timestamp r)
            /\ (limit = 0
                \/ Z.of_nat (List.length (window_of since s docs)) <= limit ->
                forall r, In r docs -> sensor r = s -> since <= timestamp r ->
                          In r out)).
Proof.
  intros req w Hloc. split; [| split; [| split]].
  - unfold api_timeseries, int_arg.
    rewrite (args_get_remove_same "location" req).
    rewrite !(args_get_remove_other "location") by discriminate.
    rewrite Hloc. reflexivity.
  - intros s since. rewrite Hloc. reflexivity.
  - intros s since r. rewrite Hloc. unfold matches, build_query. simpl.
    apply andb_true_r.
  - intros s since limit docs Hreq.
    exists (timeseries_docs s since None limit docs).
    rewrite (series_request_run _ _ _ _ _ _ Hreq), Hloc.
    destruct Hreq as (_ & _ & _ & _ & _ & _ & Hfit).
    split; [reflexivity |]. split.
    + intros r Hin. apply timeseries_docs_In in Hin as [Hin Hm].
      apply matches_no_location in Hm. propositional.
    + intros Hlim r Hin Hs Ht.
      apply timeseries_docs_complete; [lia | | exact Hin |].
      * rewrite filter_matches_no_location.
        replace (filter (fun r0 => String.eqb (sensor r0) s
                                   && (since <=? timestamp r0)) docs)
          with (window_of since s docs)
          by (apply filter_ext; intros a; apply andb_comm).
        lia.
      * now apply matches_no_location.
Qed.

(** What the cursor hands over when the limit is positive and smaller
    than the number of matching readings: the head of the descending
    sort, and what it leaves behind. *)
Lemma find_sort_limit_split q limit docs :
  0 < limit ->
  limit < Z.of_nat (List.length (filter (matches q) docs)) ->
  let sorted := stable_sort ts_ge (filter (matches q) docs) in
  find_sort_limit q limit docs = firstn (Z.to_nat limit) sorted
  /\ List.length (firstn (Z.to_nat limit) sorted) = Z.to_nat limit
  /\ (forall k d, In k (firstn (Z.to_nat limit) sorted) ->
                  In d (skipn (Z.to_nat limit) sorted) ->
                  timestamp d <= timestamp k).
Proof.
  intros Hpos Hlt sorted. split; [| split].
  - unfold find_sort_limit, cursor_limit.
    destruct (Z.eqb_spec limit 0); [lia |].
    destruct (Z.ltb_spec 0 limit); [| lia].
    reflexivity.
  - apply firstn_length_le. unfold sorted. rewrite stable_sort_length. lia.
  - intros k d Hk Hd.
    assert (Hs : StronglySorted (fun a b => ts_ge a b = true)
                   (firstn (Z.to_nat limit) sorted
                    ++ skipn (Z.to_nat limit) sorted)).
    { rewrite firstn_skipn.
      apply (stable_sort_strongly ts_ge ts_ge_total ts_ge_trans). }
    pose proof (strongly_sorted_app ts_ge _ _ Hs k d Hk Hd) as H.
    unfold ts_ge in H. now apply Z.leb_le.
Qed.

(** Three readings of increasing timestamps sort to one descending list. *)
Lemma sort_descending_three l r1 r2 r3 :
  Permutation l [r1; r2; r3] ->
  timestamp r1 < timestamp r2 -> timestamp r2 < timestamp r3 ->
  stable_sort ts_ge l = [r3; r2; r1].
Proof.
  intros Hp H12 H23.
  assert (Hp' : Permutation (stable_sort ts_ge l) [r3; r2; r1]).
  { rewrite stable_sort_perm, Hp.
    change [r3; r2; r1] with (rev [r1; r2; r3]). apply Permutation_rev. }
  symmetry.
  apply (strongly_sorted_unique ts_ge); [| | | symmetry; exact Hp'].
  - intros a b Ha Hb Hab Hba. unfold ts_ge in Hab, Hba.
    apply Z.leb_le in Hab, Hba. simpl in Ha, Hb.
    destruct Ha as [<- | [<- | [<- | []]]];
      destruct Hb as [<- | [<- | [<- | []]]]; try reflexivity; lia.
  - repeat constructor; unfold ts_ge; apply Z.leb_le; lia.
  - apply (stable_sort_strongly ts_ge ts_ge_total ts_ge_trans).
Qed.

(** C2.  When more readings match than a positive [limit] allows, the
    series reader answers with exactly [limit] of them, in ascending order
    of timestamp; together with the readings it drops they make up the
    matching readings, and no dropped reading is more recent than a kept
    one.  With limit 2 and three matching readings at t1 < t2 < t3 the
    answer is the readings at t2 and t3, in that order. *)
Theorem timeseries_keeps_most_recent :
  forall (req : Request) (w : World) (s : string) (since limit : Z)
         (docs : list Reading),
    series_request req w s since limit docs ->
    let matching :=
      filter (matches (build_query s since (args_get "location" req))) docs in
    0 < limit ->
    limit < Z.of_nat (List.length matching) ->
    exists out,
      fst (api_timeseries req w) = inr (mkResponse 200 (BSeries out))
      /\ Z.of_nat (List.length out) = limit
      /\ StronglySorted (fun a b => timestamp a <= timestamp b) out
      /\ (exists dropped,
            Permutation (out ++ dropped) matching
            /\ forall k d, In k out -> In d dropped ->
                           timestamp d <= timestamp k)
      /\ (forall r1 r2 r3,
            limit = 2 ->
            Permutation matching [r1; r2; r3] ->
            timestamp r1 < timestamp r2 -> timestamp r2 < timestamp r3 ->
            out = [r2; r3]).
Proof.
  intros req w s since limit docs Hreq matching Hpos Hlt.
  set (q := build_query s since (args_get "location" req)) in *.
  destruct (find_sort_limit_split q limit docs Hpos Hlt)
    as (Hfind & Hlen & Hrecent).
  set (sorted := stable_sort ts_ge (filter (matches q) docs)) in *.
  exists (timeseries_docs s since (args_get "location" req) limit docs).
  rewrite (series_request_run _ _ _ _ _ _ Hreq).
  split; [reflexivity |].
  unfold timeseries_docs. fold q. rewrite Hfind.
  split; [rewrite stable_sort_length, Hlen; lia |].
  split.
  { eapply strongly_sorted_impl;
      [| apply (stable_sort_strongly ts_le ts_le_total ts_le_trans)].
    intros a b H. unfold ts_le in H. now apply Z.leb_le. }
  split.
  { exists (skipn (Z.to_nat limit) sorted). split.
    - rewrite stable_sort_perm, firstn_skipn. apply stable_sort_perm.
    - intros k d Hk Hd. rewrite stable_sort_In in Hk. now apply Hrecent. }
  intros r1 r2 r3 -> Hp H12 H23.
  unfold sorted. fold matching.
  rewrite (sort_descending_three matching r1 r2 r3 Hp H12 H23).
  simpl. unfold ts_le.
  destruct (timestamp r3 <=? timestamp r2) eqn:E; [| reflexivity].
  apply Z.leb_le in E. lia.
Qed.

(* ================================================================== *)
(** * The 24 hour statistics *)
(* ================================================================== *)

Lemma hours_before_Some now h t :
  hours_before now h = Some t -> t = now - h * ms_per_hour.
Proof.
  unfold hours_before.
  destruct (Z.abs (h / 24) <=? 999999999); [| discriminate].
  destruct ((datetime_min <=? now - h * ms_per_hour)
            && (now - h * ms_per_hour <=? datetime_max));
    [congruence | discriminate].
Qed.

Lemma summary_request_run w since docs :
  summary_request w since docs ->
  api_summary w
  = (inr (mkResponse 200
            (BSummary (latest_pipeline docs) (stats_pipeline since docs))),
     logged w [Connect; AggregateLatest; AggregateStats since]).
Proof.
  intros (Hu & Hr & Hc).
  unfold api_summary, try_except_PyMongoError, bind, get_collection, get_db,
    store_op, since_hours, log, ret.
  rewrite Hu; simpl. rewrite Hr; simpl. rewrite Hc; simpl.
  unfold logged. rewrite Hr, <- !app_assoc. reflexivity.
Qed.

Lemma filter_filter_and {A} (f g : A -> bool) l :
  filter f (filter g l) = filter (fun x => g x && f x) l.
Proof.
  induction l as [| x l IH]; simpl; [reflexivity |].
  destruct (g x); simpl; [destruct (f x) |]; now rewrite IH.
Qed.


(** The group of sensor [X] in the statistics pipeline. *)
Lemma stats_group_window since docs X :
  filter (fun d => String.eqb X (sensor d)) (match_since since docs)
  = window_of since X docs.
Proof.
  unfold match_since, window_of. rewrite filter_filter_and.
  apply filter_ext. intros r. now rewrite (String.eqb_sym X).
Qed.

Lemma stats_pipeline_groups since docs :
  stats_pipeline since docs
  = flat_map (fun X => stat_of_group (X, window_of since X docs))
      (distinct String.eqb (map sensor (match_since since docs))).
Proof.
  unfold stats_pipeline, group_stage. rewrite flat_map_concat_map, map_map.
  rewrite <- flat_map_concat_map. apply flat_map_ext. intros X.
  now rewrite stats_group_window.
Qed.

Lemma stat_of_group_sensor g e : In e (stat_of_group g) -> stat_sensor e = fst g.
Proof.
  unfold stat_of_group. destruct (map value (snd g)); simpl; [propositional |].
  intros [<- | []]. reflexivity.
Qed.

Lemma stats_pipeline_In since docs e :
  In e (stats_pipeline since docs) <->
  In e (stat_of_group (stat_sensor e, window_of since (stat_sensor e) docs))
  /\ window_of since (stat_sensor e) docs <> [].
Proof.
  rewrite stats_pipeline_groups, in_flat_map. split.
  - intros (X & HX & He). pose proof (stat_of_group_sensor _ _ He) as Hs.
    simpl in Hs. subst X. split; [exact He |].
    intros Hnil. rewrite Hnil in He. exact He.
  - intros [He Hne]. exists (stat_sensor e). split; [| exact He].
    apply (distinct_In _ String.eqb_eq), in_map_iff.
    destruct (window_of since (stat_sensor e) docs) as [| d ds] eqn:Hw;
      [congruence |].
    assert (Hd : In d (window_of since (stat_sensor e) docs))
      by (rewrite Hw; now left).
    unfold window_of in Hd. apply filter_In in Hd as [Hd Hc].
    apply andb_prop in Hc as [Hc1 Hc2]. apply String.eqb_eq in Hc2.
    exists d. split; [exact Hc2 |].
    unfold match_since. apply filter_In. now split.
Qed.


(** Accumulators. *)









(* ================================================================== *)
(** * Orders built from three-way comparisons *)
(* ================================================================== *)

Section Orderings.

Context {A : Type}.

Lemma ord_eq_r (cmp : A -> A -> comparison) :
  Ordering cmp -> forall a b c, cmp b c = Eq -> cmp a b = cmp a c.
Proof.
  intros O a b c Hbc.
  assert (Hcb : cmp c b = Eq) by (rewrite (ord_antisym _ O), Hbc; reflexivity).
  rewrite (ord_antisym _ O a b), (ord_antisym _ O a c).
  f_equal. symmetry. apply (ord_eq_l _ O). exact Hcb.
Qed.

Lemma le_of_total (cmp : A -> A -> comparison) :
  Ordering cmp -> forall a b, le_of cmp a b = true \/ le_of cmp b a = true.
Proof.
  intros O a b. unfold le_of. rewrite (ord_antisym _ O b a).
  destruct (cmp a b); simpl; propositional.
Qed.

Lemma le_of_trans (cmp : A -> A -> comparison) :
  Ordering cmp ->
  forall a b c,
    le_of cmp a b = true -> le_of cmp b c = true -> le_of cmp a c = true.
Proof.
  intros O a b c. unfold le_of.
  destruct (cmp a b) eqn:Hab; try discriminate;
    destruct (cmp b c) eqn:Hbc; try discriminate; intros _ _.
  - now rewrite (ord_eq_l _ O a b c Hab), Hbc.
  - now rewrite (ord_eq_l _ O a b c Hab), Hbc.
  - now rewrite <- (ord_eq_r _ O a b c Hbc), Hab.
  - now rewrite (ord_lt_trans _ O a b c Hab Hbc).
Qed.

Lemma Ordering_lex (c1 c2 : A -> A -> comparison) :
  Ordering c1 -> Ordering c2 -> Ordering (lex c1 c2).
Proof.
  intros O1 O2. split; unfold lex.
  - intros a b. rewrite (ord_antisym _ O1 a b).
    destruct (c1 b a); simpl; [apply (ord_antisym _ O2) | |]; reflexivity.
  - intros a b c.
    destruct (c1 a b) eqn:Hab; try discriminate;
      destruct (c1 b c) eqn:Hbc; try discriminate; intros H1 H2.
    + rewrite (ord_eq_l _ O1 a b c Hab), Hbc.
      exact (ord_lt_trans _ O2 a b c H1 H2).
    + now rewrite (ord_eq_l _ O1 a b c Hab), Hbc.
    + now rewrite <- (ord_eq_r _ O1 a b c Hbc), Hab.
    + now rewrite (ord_lt_trans _ O1 a b c Hab Hbc).
  - intros a b c.
    destruct (c1 a b) eqn:Hab; try discriminate. intros H.
    rewrite (ord_eq_l _ O1 a b c Hab).
    destruct (c1 b c); [apply (ord_eq_l _ O2); exact H | |]; reflexivity.
Qed.

Lemma Ordering_by_field {B : Type} (f : A -> B) (cmp : B -> B -> comparison) :
  Ordering cmp -> Ordering (by_field f cmp).
Proof.
  intros O. split; unfold by_field; intros.
  - apply (ord_antisym _ O).
  - eapply (ord_lt_trans _ O); eassumption.
  - now apply (ord_eq_l _ O).
Qed.

End Orderings.

Lemma Ordering_string : Ordering String.compare.
Proof.
  split.
  - apply String.compare_antisym.
  - intros a b c. apply string_compare_lt_trans.
  - intros a b c H. apply String.compare_eq_iff in H. now subst.
Qed.

Lemma Ordering_location : Ordering compare_location.
Proof.
  split.
  - intros [| | x] [| | y]; simpl; try reflexivity.
    apply String.compare_antisym.
  - intros [| | x] [| | y] [| | z]; simpl; try discriminate; try reflexivity.
    apply string_compare_lt_trans.
  - intros [| | x] [| | y] [| | z]; simpl; try discriminate; try reflexivity.
    intros H. apply String.compare_eq_iff in H. now subst.
Qed.

Lemma Ordering_newest_first : Ordering (fun a b : Z => Z.compare b a).
Proof.
  split.
  - intros a b. apply Z.compare_antisym.
  - intros a b c. rewrite !Z.compare_lt_iff. lia.
  - intros a b c H. apply Z.compare_eq in H. now subst.
Qed.

Lemma compare_latest_lex :
  compare_latest
  = lex (by_field sensor String.compare)
      (lex (by_field location compare_location)
         (by_field timestamp (fun a b => Z.compare b a))).
Proof. reflexivity. Qed.

Lemma Ordering_latest : Ordering compare_latest.
Proof.
  rewrite compare_latest_lex.
  apply Ordering_lex; [apply Ordering_by_field, Ordering_string |].
  apply Ordering_lex; apply Ordering_by_field;
    [apply Ordering_location | apply Ordering_newest_first].
Qed.

Lemma sort_latest_strongly docs :
  StronglySorted (fun a b => le_of compare_latest a b = true) (sort_latest docs).
Proof.
  apply stable_sort_strongly;
    [apply le_of_total | apply le_of_trans]; apply Ordering_latest.
Qed.

(* ================================================================== *)
(** * The latest reading of every group *)
(* ================================================================== *)

Lemma group_id_eqb_spec a b : group_id_eqb a b = true <-> a = b.
Proof.
  destruct a as [a1 a2], b as [b1 b2]. unfold group_id_eqb. simpl.
  rewrite andb_true_iff, !String.eqb_eq. split; [intros []; congruence |].
  intros H. injection H as -> ->. split; reflexivity.
Qed.

(** The first element that a filter keeps, and what precedes it. *)
Lemma filter_head {A} (f : A -> bool) l e rest :
  filter f l = e :: rest ->
  exists l1 l2,
    l = l1 ++ e :: l2 /\ f e = true /\ forall x, In x l1 -> f x = false.
Proof.
  induction l as [| y l IH]; simpl; [discriminate |].
  destruct (f y) eqn:Hy.
  - intros H. injection H as -> _.
    exists [], l. repeat split; [exact Hy | intros x []].
  - intros H. destruct (IH H) as (l1 & l2 & -> & He & Hl1).
    exists (y :: l1), l2. repeat split; [exact He |].
    intros x [<- | Hx]; [exact Hy | now apply Hl1].
Qed.

(** Every row of the latest view is the first document of its group in
    the sorted stream. *)
Lemma latest_pipeline_In docs e :
  In e (latest_pipeline docs) <->
  exists rest,
    filter (fun d => group_id_eqb (group_id e) (group_id d)) (sort_latest docs)
    = e :: rest.
Proof.
  unfold latest_pipeline, group_stage. rewrite in_flat_map. split.
  - intros ([k g] & Hg & He). apply in_map_iff in Hg as (k' & Hk & _).
    injection Hk as -> <-. unfold first_of_group in He. simpl in He.
    destruct (filter (fun d => group_id_eqb k (group_id d)) (sort_latest docs))
      as [| d rest] eqn:Hf; [contradiction |].
    destruct He as [-> | []].
    assert (Hin : In e (e :: rest)) by now left.
    rewrite <- Hf in Hin. apply filter_In in Hin as [_ Hin].
    apply group_id_eqb_spec in Hin. subst k. now exists rest.
  - intros (rest & Hf).
    exists (group_id e, e :: rest). split.
    + apply in_map_iff. exists (group_id e). split; [now rewrite Hf |].
      apply (distinct_In _ group_id_eqb_spec), in_map.
      assert (Hin : In e (e :: rest)) by now left.
      rewrite <- Hf in Hin. now apply filter_In in Hin as [Hin _].
    + now left.
Qed.

Lemma latest_pipeline_keys docs :
  map group_id (latest_pipeline docs)
  = distinct group_id_eqb (map group_id (sort_latest docs)).
Proof.
  unfold latest_pipeline, group_stage.
  assert (H : forall keys,
             (forall k, In k keys -> In k (map group_id (sort_latest docs))) ->
             map group_id
               (flat_map first_of_group
                  (map (fun k => (k, filter (fun d => group_id_eqb k (group_id d))
                                       (sort_latest docs))) keys))
             = keys).
  { induction keys as [| k keys IH]; intros Hsub; simpl; [reflexivity |].
    rewrite map_app, IH by (intros k' Hk'; apply Hsub; now right).
    assert (Hk : In k (map group_id (sort_latest docs)))
      by (apply Hsub; now left).
    apply in_map_iff in Hk as (d & Hd & Hin).
    unfold first_of_group. simpl.
    destruct (filter (fun d0 => group_id_eqb k (group_id d0)) (sort_latest docs))
      as [| d0 rest] eqn:Hf.
    - assert (Hd0 : In d (filter (fun d0 => group_id_eqb k (group_id d0))
                            (sort_latest docs))).
      { apply filter_In. split; [exact Hin |].
        now apply group_id_eqb_spec. }
      rewrite Hf in Hd0. contradiction.
    - assert (Hd0 : In d0 (d0 :: rest)) by now left.
      rewrite <- Hf in Hd0. apply filter_In in Hd0 as [_ Hd0].
      apply group_id_eqb_spec in Hd0. simpl. now rewrite <- Hd0. }
  apply H. intros k. apply (distinct_In _ group_id_eqb_spec).
Qed.

(** Two readings of one group compare [Eq] on sensor and on location,
    unless one of them is literally located at the sentinel. *)
Lemma same_group_same_sort_keys a b :
  location a <> Value "__none__" -> location b <> Value "__none__" ->
  group_id a = group_id b ->
  compare_latest a b = Z.compare (timestamp b) (timestamp a).
Proof.
  intros Ha Hb Hg. unfold group_id in Hg. injection Hg as Hs Hl.
  unfold compare_latest. rewrite Hs, string_compare_refl.
  destruct (location a) as [| | x], (location b) as [| | y]; simpl in *;
    try reflexivity; try congruence.
  subst y. now rewrite string_compare_refl.
Qed.

(** The latest view without a location spelled like the sentinel: one
    row per group, each a stored reading of its group with the greatest
    timestamp of the group. *)
Lemma latest_pipeline_sentinel_free docs :
  sentinel_free docs ->
  NoDup (map group_id (latest_pipeline docs))
  /\ (forall r, In r docs ->
        exists e, In e (latest_pipeline docs) /\ group_id e = group_id r)
  /\ (forall e, In e (latest_pipeline docs) ->
        In e docs
        /\ forall r, In r docs -> group_id r = group_id e ->
                     timestamp r <= timestamp e).
Proof.
  intros Hfree. split; [| split].
  - rewrite latest_pipeline_keys. apply (distinct_NoDup _ group_id_eqb_spec).
  - intros r Hr.
    assert (Hk : In (group_id r) (map group_id (latest_pipeline docs))).
    { rewrite latest_pipeline_keys.
      apply (distinct_In _ group_id_eqb_spec), in_map.
      now apply stable_sort_In. }
    apply in_map_iff in Hk as (e & He & Hin). now exists e.
  - intros e He. apply latest_pipeline_In in He as (rest & Hf).
    destruct (filter_head _ _ _ _ Hf) as (l1 & l2 & Hsplit & _ & Hbefore).
    assert (Hin : In e docs).
    { apply (stable_sort_In (le_of compare_latest)). fold (sort_latest docs).
      rewrite Hsplit. apply in_or_app. right. now left. }
    split; [exact Hin |].
    intros r Hr Hg.
    assert (Hr' : In r (sort_latest docs)) by now apply stable_sort_In.
    rewrite Hsplit in Hr'. apply in_app_or in Hr' as [Hr' | [<- | Hr']].
    + apply Hbefore in Hr'.
      assert (group_id_eqb (group_id e) (group_id r) = true)
        by now apply group_id_eqb_spec.
      congruence.
    + lia.
    + pose proof (sort_latest_strongly docs) as Hs. rewrite Hsplit in Hs.
      assert (Hle : le_of compare_latest e r = true).
      { apply (strongly_sorted_app (le_of compare_latest) (l1 ++ [e]) l2).
        - now rewrite <- app_assoc.
        - apply in_or_app. right. now left.
        - exact Hr'. }
      unfold le_of in Hle.
      rewrite (same_group_same_sort_keys e r) in Hle;
        [| now apply Hfree | now apply Hfree | now symmetry].
      destruct (Z.compare_spec (timestamp r) (timestamp e));
        [lia | lia | discriminate].
Qed.

(** X1.  The latest view of the summary when no stored location is
    spelled like the sentinel: the answer holds exactly one row for every
    (sensor, location) group of the store, missing and [null] locations
    forming one group per sensor, and that row is a stored reading of the
    group with the greatest timestamp of the group. *)
Theorem latest_view_without_sentinel :
  forall (w : World) (since : Z) (docs : list Reading),
    summary_request w since docs ->
    sentinel_free docs ->
    exists latest stats,
      fst (api_summary w) = inr (mkResponse 200 (BSummary latest stats))
      /\ NoDup (map group_id latest)
      /\ (forall r, In r docs ->
            exists e, In e latest /\ group_id e = group_id r)
      /\ (forall e, In e latest ->
            In e docs
            /\ forall r, In r docs -> group_id r = group_id e ->
                         timestamp r <= timestamp e).
Proof.
  intros w since docs Hreq Hfree.
  exists (latest_pipeline docs), (stats_pipeline since docs).
  rewrite (summary_request_run _ _ _ Hreq).
  split; [reflexivity |]. now apply latest_pipeline_sentinel_free.
Qed.

(** C1.  With a location that is literally the sentinel text the latest
    view goes wrong.  The store holds two readings of sensor [soil]: one
    located at ["__none__"], taken at 1699999995000, and an older one
    without location, taken at 1699999992000.  Both fall in one group, the
    sort puts the reading without location first, and the summary answers
    with that older reading alone: the group's row is not its most recent
    reading, and the reading located at ["__none__"] has no row. *)
Theorem latest_view_sentinel_collision :
  let named := mkReading "soil" (40 # 1) (Some "%") 1699999995000
                 (Value "__none__") in
  let bare := mkReading "soil" (30 # 1) (Some "%") 1699999992000 Absent in
  let w := mkWorld (Some "mongodb://db") (Reachable [named; bare])
             1700000000000 [] in
  (exists stats,
     fst (api_summary w) = inr (mkResponse 200 (BSummary [bare] stats)))
  /\ sort_latest [named; bare] = [bare; named]
  /\ group_id named = group_id bare
  /\ timestamp bare < timestamp named
  /\ location bare <> location named.
Proof.
  intros named bare w.
  split; [eexists; reflexivity |].
  split; [reflexivity |].
  split; [reflexivity |].
  split; [reflexivity | discriminate].
Qed.

(* ================================================================== *)
(** * Every path through the series reader *)
(* ================================================================== *)

Lemma int_arg_cases k d req w :
  (exists n, int_arg k d req w = (inr n, w))
  \/ (rejected_int k req /\ exists msg, int_arg k d req w = (inl (ValueError msg), w)).
Proof.
  unfold int_arg, rejected_int.
  destruct (args_get k req) as [s |]; [| left; now exists d].
  destruct (py_int s) as [msg | n] eqn:E.
  - right. split; [now exists s, msg |]. eexists. reflexivity.
  - left. now exists n.
Qed.

Lemma int_arg_world k d req w r w' : int_arg k d req w = (r, w') -> w' = w.
Proof.
  unfold int_arg, ret, raise.
  destruct (args_get k req) as [s |]; [destruct (py_int s) |]; congruence.
Qed.

Lemma int_arg_any_world k d req w w' n :
  int_arg k d req w = (inr n, w) -> int_arg k d req w' = (inr n, w').
Proof.
  unfold int_arg, ret, raise.
  destruct (args_get k req) as [s |]; [destruct (py_int s) |]; congruence.
Qed.

(** Every run of [api_timeseries] ends in one of the seven ways. *)
Lemma api_timeseries_ends req w : series_end req w (api_timeseries req w).
Proof.
  destruct (args_get "sensor" req) as [s |] eqn:Hs.
  2:{ replace (api_timeseries req w)
        with (@inr Exception _
                (mkResponse 400 (BError "Missing required parameter: sensor")), w)
        by (unfold api_timeseries; rewrite Hs; reflexivity).
      apply end_no_sensor. now rewrite Hs. }
  destruct (truthy s) eqn:Ht.
  2:{ replace (api_timeseries req w)
        with (@inr Exception _
                (mkResponse 400 (BError "Missing required parameter: sensor")), w)
        by (unfold api_timeseries; rewrite Hs; simpl; rewrite Ht; reflexivity).
      apply end_no_sensor. now rewrite Hs. }
  rewrite (api_timeseries_with_sensor req s Hs Ht).
  destruct (int_arg_cases "hours" 24 req w) as [[h Hh] | [Hrej [msg Hh]]].
  2:{ unfold bind at 1. rewrite Hh.
      apply (end_bad_int req w s msg Hs Ht). now left. }
  destruct (int_arg_cases "limit" 1000 req w) as [[n Hn] | [Hrej [msg Hn]]].
  2:{ unfold bind at 1. rewrite Hh. unfold bind at 1. rewrite Hn.
      apply (end_bad_int req w s msg Hs Ht). now right. }
  destruct (truthy_opt (MONGODB_URI w)) eqn:Hu.
  2:{ unfold bind at 1. rewrite Hh. unfold bind at 1. rewrite Hn.
      unfold try_except_PyMongoError, bind, get_collection, get_db, raise.
      rewrite Hu. apply (end_no_uri req w s h n _ Hs Ht Hh Hn Hu). }
  destruct (hours_before (clock w) h) as [since |] eqn:Hc.
  2:{ unfold bind at 1. rewrite Hh. unfold bind at 1. rewrite Hn.
      unfold try_except_PyMongoError, bind, get_collection, get_db,
        since_hours, log.
      rewrite Hu; simpl. rewrite Hc.
      apply (end_overflow req w s h n _ Hs Ht Hh Hn Hu Hc). }
  rewrite <- (api_timeseries_with_sensor req s Hs Ht).
  rewrite (api_timeseries_parsed req w s h n since Hs Ht Hh Hn Hu Hc).
  destruct (readings w) as [docs | err] eqn:Hr.
  - destruct (Z.leb_spec (Z.abs n) int64_max) as [Hfit | Hfit].
    + apply (end_answer req w s h n since docs); assumption.
    + apply (end_limit_overflow req w s h n since docs); assumption.
  - apply (end_store_failure req w s h n since err); assumption.
Qed.

(** X2.  The series reader answers with status 400 exactly when [sensor]
    is missing or empty; it then gives the message of line 237 and leaves
    the world, log of store accesses included, as it found it.  No other
    path through the handler produces a 400. *)
Theorem timeseries_client_error_exactly :
  forall (req : Request) (w : World),
    (truthy_opt (args_get "sensor" req) = false ->
     api_timeseries req w
     = (inr (mkResponse 400 (BError "Missing required parameter: sensor")), w))
    /\ (forall r, fst (api_timeseries req w) = inr r -> status r = 400 ->
                  truthy_opt (args_get "sensor" req) = false).
Proof.
  intros req w. pose proof (api_timeseries_ends req w) as Hend. split.
  - intros Hs. unfold api_timeseries. rewrite Hs. reflexivity.
  - intros r Hr Hst.
    destruct Hend as [Hs | s msg Hs Ht _ | s h n msg Hs Ht _ _ _
                      | s h n msg Hs Ht _ _ _ _
                      | s h n since err Hs Ht _ _ _ _ _
                      | s h n since docs msg Hs Ht _ _ _ _ _ _
                      | s h n since docs Hs Ht _ _ _ _ _ _]; simpl in Hr;
      try discriminate; try exact Hs;
      injection Hr as <-; simpl in Hst; discriminate.
Qed.

(** X3.  Whenever the series reader answers 200, every reading of the
    answer is a stored reading of the requested sensor whose timestamp is
    not earlier than [hours] hours before now, and the store has been
    asked exactly once, after the connection. *)
Theorem timeseries_answer_within_sensor_and_window :
  forall (req : Request) (w : World) (out : list Reading),
    fst (api_timeseries req w) = inr (mkResponse 200 (BSeries out)) ->
    exists s h n docs,
      args_get "sensor" req = Some s
      /\ int_arg "hours" 24 req w = (inr h, w)
      /\ readings w = Reachable docs
      /\ (forall r, In r out ->
            In r docs /\ sensor r = s
            /\ clock w - h * ms_per_hour <= timestamp r)
      /\ accesses (snd (api_timeseries req w))
         = accesses w
           ++ [Connect;
               Find (build_query s (clock w - h * ms_per_hour)
                       (args_get "location" req)) n].
Proof.
  intros req w out Hout. pose proof (api_timeseries_ends req w) as Hend.
  destruct Hend as [Hs | s msg Hs Ht _ | s h n msg Hs Ht _ _ _
                    | s h n msg Hs Ht _ _ _ _
                    | s h n since err Hs Ht _ _ _ _ _
                    | s h n since docs msg Hs Ht _ _ _ _ _ _
                    | s h n since docs Hs Ht Hh Hn Hu Hc Hr Hfit];
    simpl in Hout; try discriminate.
  injection Hout as <-.
  apply hours_before_Some in Hc. subst since.
  exists s, h, n, docs. repeat split; try assumption.
  - now apply timeseries_docs_In in H.
  - apply timeseries_docs_In in H as [_ Hm]. unfold matches in Hm. simpl in Hm.
    apply andb_prop in Hm as [Hm _]. apply andb_prop in Hm as [Hm _].
    now apply String.eqb_eq.
  - apply timeseries_docs_In in H as [_ Hm]. unfold matches in Hm. simpl in Hm.
    apply andb_prop in Hm as [Hm _]. apply andb_prop in Hm as [_ Hm].
    now apply Z.leb_le.
Qed.

Lemma cursor_limit_length n l :
  n <> 0 -> Z.of_nat (List.length (cursor_limit n l)) <= Z.abs n.
Proof.
  intros Hn. unfold cursor_limit.
  destruct (Z.eqb_spec n 0); [contradiction |].
  destruct (0 <? n); rewrite length_firstn; lia.
Qed.

(** X4.  For a series request whose limit the cursor answers in full
    (not negative, within the wire format): the answer never holds more
    readings than a non-zero [limit].  With limit 0, or with a limit that
    the number of matching readings does not exceed, nothing is dropped:
    the answer is a rearrangement of all matching readings, in ascending
    order of timestamp. *)
Theorem timeseries_limit_bounds :
  forall (req : Request) (w : World) (s : string) (since limit : Z)
         (docs : list Reading),
    series_request req w s since limit docs ->
    let matching :=
      filter (matches (build_query s since (args_get "location" req))) docs in
    exists out,
      fst (api_timeseries req w) = inr (mkResponse 200 (BSeries out))
      /\ (limit <> 0 -> Z.of_nat (List.length out) <= Z.abs limit)
      /\ (limit = 0 \/ Z.of_nat (List.length matching) <= Z.abs limit ->
          Permutation out matching)
      /\ StronglySorted (fun a b => timestamp a <= timestamp b) out.
Proof.
  intros req w s since limit docs Hreq matching.
  exists (timeseries_docs s since (args_get "location" req) limit docs).
  rewrite (series_request_run _ _ _ _ _ _ Hreq).
  split; [reflexivity |]. split; [| split].
  - intros Hn. unfold timeseries_docs, find_sort_limit.
    rewrite stable_sort_length. now apply cursor_limit_length.
  - intros Hall. unfold timeseries_docs, find_sort_limit. fold matching.
    destruct Hreq as (_ & _ & _ & _ & _ & _ & Hfit).
    rewrite stable_sort_perm.
    rewrite cursor_limit_all;
      [apply stable_sort_perm | lia | now rewrite stable_sort_length].
  - apply timeseries_docs_ascending.
Qed.

(** X5.  Without a connection string ([MONGODB_URI] unset or empty) the
    dimension lister and the summary raise the [ValueError] of [get_db]
    instead of answering, because their handlers catch store errors only;
    the series reader answers 400 or raises [ValueError].  In all three
    the world is left untouched: nothing is asked of the store. *)
Theorem handlers_without_connection_string :
  forall (req : Request) (w : World),
    truthy_opt (MONGODB_URI w) = false ->
    (exists msg, api_sensors w = (inl (ValueError msg), w))
    /\ (exists msg, api_summary w = (inl (ValueError msg), w))
    /\ ((truthy_opt (args_get "sensor" req) = false
         /\ api_timeseries req w
            = (inr (mkResponse 400 (BError "Missing required parameter: sensor")),
               w))
        \/ (truthy_opt (args_get "sensor" req) = true
            /\ exists msg, api_timeseries req w = (inl (ValueError msg), w))).
Proof.
  intros req w Hu. split; [| split].
  - unfold api_sensors, try_except_PyMongoError, bind, get_collection, get_db.
    rewrite Hu. eexists. reflexivity.
  - unfold api_summary, try_except_PyMongoError, bind, get_collection, get_db.
    rewrite Hu. eexists. reflexivity.
  - pose proof (api_timeseries_ends req w) as Hend.
    destruct Hend as [Hs | s msg Hs Ht _ | s h n msg Hs Ht _ _ _
                      | s h n msg Hs Ht _ _ Hu' _
                      | s h n since err Hs Ht _ _ Hu' _ _
                      | s h n since docs msg Hs Ht _ _ Hu' _ _ _
                      | s h n since docs Hs Ht _ _ Hu' _ _ _].
    + left. now split.
    + right. rewrite Hs. split; [exact Ht | now exists msg].
    + right. rewrite Hs. split; [exact Ht | now exists msg].
    + congruence.
    + congruence.
    + congruence.
    + congruence.
Qed.

Lemma hours_before_out_of_range now h :
  999999999 < Z.abs (h / 24) -> hours_before now h = None.
Proof.
  intros H. unfold hours_before.
  destruct (Z.leb_spec (Z.abs (h / 24)) 999999999); [lia | reflexivity].
Qed.

(** X6.  A [hours] value of more than 999999999 days, in either
    direction, makes the series reader raise [OverflowError]: the handler
    does not catch it, the connection has been set up, and no query has
    been sent. *)
Theorem timeseries_hours_out_of_range :
  forall (req : Request) (w : World) (s sh : string) (h : Z),
    args_get "sensor" req = Some s -> truthy s = true ->
    args_get "hours" req = Some sh -> py_int sh = inr h ->
    ~ rejected_int "limit" req ->
    truthy_opt (MONGODB_URI w) = true ->
    999999999 < Z.abs (h / 24) ->
    exists msg,
      api_timeseries req w = (inl (OverflowError msg), logged w [Connect]).
Proof.
  intros req w s sh h Hs Ht Hh Hph Hlim Hu Hbig.
  pose proof (hours_before_out_of_range (clock w) h Hbig) as Hnone.
  assert (Hint : int_arg "hours" 24 req w = (inr h, w))
    by (unfold int_arg; rewrite Hh, Hph; reflexivity).
  pose proof (api_timeseries_ends req w) as Hend.
  destruct Hend as [Hs' | s' msg Hs' Ht' Hrej | s' h' n msg Hs' Ht' Hh' _ Hu'
                    | s' h' n msg Hs' Ht' Hh' _ _ Hc
                    | s' h' n since err Hs' Ht' Hh' _ _ Hc _
                    | s' h' n since docs msg Hs' Ht' Hh' _ _ Hc _ _
                    | s' h' n since docs Hs' Ht' Hh' _ _ Hc _ _].
  - rewrite Hs in Hs'. simpl in Hs'. congruence.
  - destruct Hrej as [(x & m & Hx & Hrej) | Hrej]; [congruence | contradiction].
  - congruence.
  - now exists msg.
  - assert (h' = h) by congruence. subst h'. congruence.
  - assert (h' = h) by congruence. subst h'. congruence.
  - assert (h' = h) by congruence. subst h'. congruence.
Qed.

(* ================================================================== *)
(** * More on the summary *)
(* ================================================================== *)

Lemma compare_location_refl f : compare_location f f = Eq.
Proof. destruct f; simpl; try reflexivity. apply string_compare_refl. Qed.

(** The row of a group is the first reading of the group in the order of
    the [$sort] stage: no reading of the group has a smaller location,
    and none of the same location is more recent. *)
Lemma latest_pipeline_first docs e :
  In e (latest_pipeline docs) ->
  In e docs
  /\ forall r, In r docs -> group_id r = group_id e ->
       compare_location (location e) (location r) <> Gt
       /\ (compare_location (location e) (location r) = Eq ->
           timestamp r <= timestamp e).
Proof.
  intros He. apply latest_pipeline_In in He as (rest & Hf).
  destruct (filter_head _ _ _ _ Hf) as (l1 & l2 & Hsplit & _ & Hbefore).
  assert (Hin : In e docs).
  { apply (stable_sort_In (le_of compare_latest)). fold (sort_latest docs).
    rewrite Hsplit. apply in_or_app. right. now left. }
  split; [exact Hin |].
  intros r Hr Hg.
  assert (Hr' : In r (sort_latest docs)) by now apply stable_sort_In.
  rewrite Hsplit in Hr'. apply in_app_or in Hr' as [Hr' | [<- | Hr']].
  - apply Hbefore in Hr'.
    assert (group_id_eqb (group_id e) (group_id r) = true)
      by now apply group_id_eqb_spec.
    congruence.
  - rewrite compare_location_refl. split; [discriminate | lia].
  - pose proof (sort_latest_strongly docs) as Hs. rewrite Hsplit in Hs.
    assert (Hle : le_of compare_latest e r = true).
    { apply (strongly_sorted_app (le_of compare_latest) (l1 ++ [e]) l2).
      - now rewrite <- app_assoc.
      - apply in_or_app. right. now left.
      - exact Hr'. }
    unfold group_id in Hg. injection Hg as Hsen _.
    unfold le_of, compare_latest in Hle.
    rewrite Hsen, string_compare_refl in Hle.
    destruct (compare_location (location e) (location r));
      try discriminate; split; try discriminate; try (intros; discriminate).
    intros _.
    destruct (Z.compare_spec (timestamp r) (timestamp e));
      [lia | lia | discriminate].
Qed.

Lemma latest_pipeline_covers docs r :
  In r docs ->
  exists e, In e (latest_pipeline docs) /\ group_id e = group_id r.
Proof.
  intros Hr.
  assert (Hk : In (group_id r) (map group_id (latest_pipeline docs))).
  { rewrite latest_pipeline_keys.
    apply (distinct_In _ group_id_eqb_spec), in_map.
    now apply stable_sort_In. }
  apply in_map_iff in Hk as (e & He & Hin). now exists e.
Qed.

(** X7.  For every store, the latest view of the summary holds exactly
    one row per group key, the key being the sensor together with the
    location, where a missing or [null] location counts as ["__none__"].
    A row is a stored reading of its group, and it is the one that the
    sort puts first: no reading of the group has a location that sorts
    before the row's (a missing location sorts before every string), and
    no reading of the group with an equal location is more recent. *)
Theorem latest_view_first_of_group :
  forall (w : World) (since : Z) (docs : list Reading),
    summary_request w since docs ->
    exists latest stats,
      fst (api_summary w) = inr (mkResponse 200 (BSummary latest stats))
      /\ NoDup (map group_id latest)
      /\ (forall r, In r docs ->
            exists e, In e latest /\ group_id e = group_id r)
      /\ (forall e, In e latest ->
            In e docs
            /\ forall r, In r docs -> group_id r = group_id e ->
                 compare_location (location e) (location r) <> Gt
                 /\ (compare_location (location e) (location r) = Eq ->
                     timestamp r <= timestamp e)).
Proof.
  intros w since docs Hreq.
  exists (latest_pipeline docs), (stats_pipeline since docs).
  rewrite (summary_request_run _ _ _ Hreq).
  split; [reflexivity |]. split; [| split].
  - rewrite latest_pipeline_keys. apply (distinct_NoDup _ group_id_eqb_spec).
  - intros r. apply latest_pipeline_covers.
  - intros e. apply latest_pipeline_first.
Qed.

(** Counting the members of groups. *)

Lemma list_sum_map_add {A} (a b : A -> nat) l :
  list_sum (map (fun x => (a x + b x)%nat) l)
  = (list_sum (map a l) + list_sum (map b l))%nat.
Proof. induction l as [| x l IH]; simpl; [reflexivity | lia]. Qed.

Lemma list_sum_indicator (x : string) keys :
  NoDup keys -> In x keys ->
  list_sum (map (fun k => if String.eqb k x then 1%nat else 0%nat) keys) = 1%nat.
Proof.
  induction 1 as [| k keys Hnin Hnd IH]; simpl; [contradiction |].
  assert (Hzero : ~ In x keys ->
            list_sum (map (fun k => if String.eqb k x then 1%nat else 0%nat) keys)
            = 0%nat).
  { clear. induction keys as [| k keys IH]; simpl; [reflexivity |].
    intros Hn. destruct (String.eqb_spec k x) as [-> | _]; [propositional |].
    apply IH. propositional. }
  intros [-> | Hin].
  - rewrite String.eqb_refl, Hzero by exact Hnin. reflexivity.
  - destruct (String.eqb_spec k x) as [-> | _]; [contradiction |].
    now rewrite IH.
Qed.

Lemma group_sizes_add_up keys (docs : list Reading) :
  NoDup keys -> (forall d, In d docs -> In (sensor d) keys) ->
  list_sum (map (fun k => List.length
                            (filter (fun d => String.eqb k (sensor d)) docs))
              keys)
  = List.length docs.
Proof.
  intros Hnd. induction docs as [| d docs IH]; intros Hcov.
  - simpl. clear. induction keys as [| k keys IHk]; simpl;
      [reflexivity | exact IHk].
  - rewrite (map_ext _
               (fun k => ((if String.eqb k (sensor d) then 1 else 0)
                          + List.length
                              (filter (fun d0 => String.eqb k (sensor d0)) docs))%nat)).
    + rewrite list_sum_map_add, list_sum_indicator, IH.
      * reflexivity.
      * intros d0 Hd0. apply Hcov. now right.
      * exact Hnd.
      * apply Hcov. now left.
    + intros k. simpl. destruct (String.eqb k (sensor d)); reflexivity.
Qed.

Lemma stat_of_group_count X g :
  list_sum (map stat_count (stat_of_group (X, g))) = List.length g.
Proof.
  unfold stat_of_group. simpl.
  destruct (map value g) as [| v vs] eqn:E; simpl.
  - destruct g; [reflexivity | discriminate].
  - rewrite <- (length_map value g), E. simpl. lia.
Qed.

Lemma stats_counts_add_up since docs :
  list_sum (map stat_count (stats_pipeline since docs))
  = List.length (match_since since docs).
Proof.
  rewrite stats_pipeline_groups.
  set (keys := distinct String.eqb (map sensor (match_since since docs))).
  rewrite <- (group_sizes_add_up keys (match_since since docs)).
  - induction keys as [| k keys IH]; simpl; [reflexivity |].
    rewrite map_app, list_sum_app, IH, stat_of_group_count.
    now rewrite stats_group_window.
  - apply (distinct_NoDup _ String.eqb_eq).
  - intros d Hd. apply (distinct_In _ String.eqb_eq). now apply in_map.
Qed.

(** X8.  The rows of the 24 hour statistics account for every reading
    of the window exactly once: their counts add up to the number of
    stored readings whose timestamp is at least 24 hours before now, and
    no row has count zero. *)
Theorem stats_counts_cover_window :
  forall (w : World) (since : Z) (docs : list Reading),
    summary_request w since docs ->
    exists latest stats,
      fst (api_summary w) = inr (mkResponse 200 (BSummary latest stats))
      /\ list_sum (map stat_count stats)
         = List.length (filter (fun r => clock w - 24 * ms_per_hour
                                         <=? timestamp r) docs)
      /\ (forall e, In e stats -> (1 <= stat_count e)%nat).
Proof.
  intros w since docs Hreq.
  exists (latest_pipeline docs), (stats_pipeline since docs).
  rewrite (summary_request_run _ _ _ Hreq).
  destruct Hreq as (_ & _ & Hc). apply hours_before_Some in Hc. subst since.
  split; [reflexivity |]. split; [apply stats_counts_add_up |].
  intros e He. apply stats_pipeline_In in He as [He _].
  unfold stat_of_group in He. simpl in He.
  destruct (map value _) as [| v vs]; [contradiction |].
  destruct He as [<- | []]. simpl. lia.
Qed.

(** X10.  The two views of the summary agree on the sensors: every
    sensor with a row in the 24 hour statistics has at least one row in
    the latest view, and every sensor of the store has one. *)
Theorem stats_sensors_have_latest :
  forall (w : World) (since : Z) (docs : list Reading),
    summary_request w since docs ->
    exists latest stats,
      fst (api_summary w) = inr (mkResponse 200 (BSummary latest stats))
      /\ (forall e, In e stats ->
            exists l, In l latest /\ sensor l = stat_sensor e)
      /\ (forall r, In r docs -> exists l, In l latest /\ sensor l = sensor r).
Proof.
  intros w since docs Hreq.
  exists (latest_pipeline docs), (stats_pipeline since docs).
  rewrite (summary_request_run _ _ _ Hreq).
  split; [reflexivity |].
  assert (Hcov : forall r, In r docs ->
            exists l, In l (latest_pipeline docs) /\ sensor l = sensor r).
  { intros r Hr. destruct (latest_pipeline_covers docs r Hr) as (l & Hl & Hg).
    exists l. split; [exact Hl |]. unfold group_id in Hg. congruence. }
  split; [| exact Hcov].
  intros e He. apply stats_pipeline_In in He as [_ Hne].
  destruct (window_of since (stat_sensor e) docs) as [| d ds] eqn:Hw;
    [congruence |].
  assert (Hd : In d (window_of since (stat_sensor e) docs))
    by (rewrite Hw; now left).
  unfold window_of in Hd. apply filter_In in Hd as [Hd Hc].
  apply andb_prop in Hc as [_ Hc]. apply String.eqb_eq in Hc.
  destruct (Hcov d Hd) as (l & Hl & Hs). exists l. split; [exact Hl | congruence].
Qed.

(* ================================================================== *)
(** * The three views of one store *)
(* ================================================================== *)

(** X11.  On one store the dimension lister and the summary agree: a
    sensor is listed exactly when the latest view has a row for it, and a
    location other than the text ["__none__"] is listed exactly when it is
    not empty and the latest view has a row at that location. *)
Theorem lister_agrees_with_latest :
  forall (w : World) (since : Z) (docs : list Reading),
    summary_request w since docs ->
    exists sensors locations latest stats,
      fst (api_sensors w) = inr (mkResponse 200 (BDimensions sensors locations))
      /\ fst (api_summary w) = inr (mkResponse 200 (BSummary latest stats))
      /\ (forall s, In s sensors <-> exists l, In l latest /\ sensor l = s)
      /\ (forall x, x <> "__none__" ->
            (In x locations
             <-> x <> "" /\ exists l, In l latest /\ location l = Value x)).
Proof.
  intros w since docs Hreq.
  exists (sorted_str (distinct_sensor docs)),
         (sorted_str (keep_truthy (distinct_location docs))),
         (latest_pipeline docs), (stats_pipeline since docs).
  rewrite (summary_request_run _ _ _ Hreq).
  destruct Hreq as (Hu & Hr & _).
  rewrite (api_sensors_healthy w docs Hu Hr).
  split; [reflexivity |]. split; [reflexivity |]. split.
  - intros s. rewrite sorted_str_In, distinct_sensor_In. split.
    + intros (r & Hin & Hs).
      destruct (latest_pipeline_covers docs r Hin) as (l & Hl & Hg).
      exists l. split; [exact Hl |]. unfold group_id in Hg. congruence.
    + intros (l & Hl & Hs). exists l. split; [| exact Hs].
      now apply latest_pipeline_first in Hl as [Hl _].
  - intros x Hsent.
    rewrite sorted_str_In, keep_truthy_In, distinct_location_In.
    split.
    + intros [(r & Hin & Hloc) Hne]. split; [exact Hne |].
      destruct (latest_pipeline_covers docs r Hin) as (l & Hl & Hg).
      exists l. split; [exact Hl |].
      unfold group_id in Hg. injection Hg as _ Hg. rewrite Hloc in Hg.
      destruct (location l) as [| | y]; simpl in Hg; congruence.
    + intros [Hne (l & Hl & Hloc)]. split; [| exact Hne].
      exists l. split; [| exact Hloc].
      now apply latest_pipeline_first in Hl as [Hl _].
Qed.

(** X12.  A series answer is empty for a sensor that the dimension lister
    does not list, and a sensor with a non-empty series answer is listed:
    an unknown sensor is answered 200 with no readings, not with an
    error. *)
Theorem unlisted_sensor_has_empty_series :
  forall (req : Request) (w : World) (s : string) (since limit : Z)
         (docs : list Reading),
    series_request req w s since limit docs ->
    exists sensors locations out,
      fst (api_sensors w) = inr (mkResponse 200 (BDimensions sensors locations))
      /\ fst (api_timeseries req w) = inr (mkResponse 200 (BSeries out))
      /\ (~ In s sensors -> out = [])
      /\ (out <> [] -> In s sensors).
Proof.
  intros req w s since limit docs Hreq.
  exists (sorted_str (distinct_sensor docs)),
         (sorted_str (keep_truthy (distinct_location docs))),
         (timeseries_docs s since (args_get "location" req) limit docs).
  rewrite (series_request_run _ _ _ _ _ _ Hreq).
  destruct Hreq as (_ & _ & _ & _ & Hu & Hr & _).
  rewrite (api_sensors_healthy w docs Hu Hr).
  split; [reflexivity |]. split; [reflexivity |].
  assert (Hlisted : forall r,
            In r (timeseries_docs s since (args_get "location" req) limit docs) ->
            In s (sorted_str (distinct_sensor docs))).
  { intros r Hin. apply timeseries_docs_In in Hin as [Hin Hm].
    rewrite sorted_str_In, distinct_sensor_In. exists r. split; [exact Hin |].
    unfold matches in Hm. simpl in Hm.
    apply andb_prop in Hm as [Hm _]. apply andb_prop in Hm as [Hm _].
    now apply String.eqb_eq. }
  split.
  - intros Hnot.
    destruct (timeseries_docs s since (args_get "location" req) limit docs)
      as [| r rest]; [reflexivity |].
    exfalso. apply Hnot. apply (Hlisted r). now left.
  - intros Hne.
    destruct (timeseries_docs s since (args_get "location" req) limit docs)
      as [| r rest]; [congruence |].
    apply (Hlisted r). now left.
Qed.

(* ================================================================== *)
(** * Repeating a read *)
(* ================================================================== *)


















(* ================================================================== *)
(** * Accounts *)
(* ================================================================== *)

Lemma site_eta s :
  {| world := world s; users := users s; session := session s;
     gensalt := gensalt s; inserted_id := inserted_id s; calls := calls s |}
  = s.
Proof. destruct s; reflexivity. Qed.

Lemma get_users_collection_run s :
  get_users_collection s
  = if truthy_opt (MONGODB_URI (world s))
    then (inr tt, connected s)
    else (inl (ValueError "MongoDB connection string is not set. Please set MONGODB_URI in .env file"),
          s).
Proof.
  unfold get_users_collection, lift, get_db, connected, logged, log, raise.
  destruct (truthy_opt (MONGODB_URI (world s))); simpl;
    [reflexivity | now rewrite site_eta].
Qed.

(** What [register] does with a body that passes its validation. *)
Lemma register_valid_run B data s :
  valid_registration data ->
  let name := py_strip (dict_get "username" "" data) in
  let mail := py_strip (dict_get "email" "" data) in
  register B (POST data) s
  = if truthy_opt (MONGODB_URI (world s))
    then
      match readings (world s) with
      | Unreachable err =>
          (inr (Json generic_store_failure),
           called (FindByNameOrEmail name mail) (connected s))
      | Reachable _ =>
          match find (name_or_email name mail) (users s) with
          | Some _ =>
              (inr (Json (mkResponse 400
                            (BError "Username or email already exists"))),
               called (FindByNameOrEmail name mail) (connected s))
          | None =>
              match refuses B (dict_get "password" "" data) with
              | Some msg =>
                  (inl (ValueError msg),
                   called (FindByNameOrEmail name mail) (connected s))
              | None =>
                  (inr (Success "/dashboard"),
                   registered (new_user B data s) s)
              end
          end
      end
    else
      (inl (ValueError "MongoDB connection string is not set. Please set MONGODB_URI in .env file"),
       s).
Proof.
  intros (Hu & He & Hp & Hlen) name mail. subst name mail. unfold register.
  rewrite Hu, He, Hp. cbn [negb orb].
  destruct (Z.ltb_spec (py_len (dict_get "password" "" data)) 6); [lia |].
  unfold strying, sbind at 1. rewrite get_users_collection_run.
  destruct (truthy_opt (MONGODB_URI (world s))); [| reflexivity].
  unfold sbind at 1, server_read. simpl.
  destruct (readings (world s)) as [docs | err] eqn:Hr; [| reflexivity].
  destruct (find _ (users s)); [reflexivity |].
  destruct (refuses B (dict_get "password" "" data)); [reflexivity |].
  unfold sbind, insert_one, login_user, sret. simpl. rewrite Hr.
  unfold registered, new_user, called, connected. simpl.
  rewrite <- app_assoc. reflexivity.
Qed.

(** What [register] does with a body that fails its validation. *)
Lemma register_invalid_run B data s :
  ~ valid_registration data ->
  exists msg,
    register B (POST data) s = (inr (Json (mkResponse 400 (BError msg))), s).
Proof.
  intros Hinv. unfold register.
  destruct (truthy (py_strip (dict_get "username" "" data))) eqn:Hu;
    [| eexists; reflexivity].
  destruct (truthy (py_strip (dict_get "email" "" data))) eqn:He;
    [| eexists; reflexivity].
  destruct (truthy (dict_get "password" "" data)) eqn:Hp;
    [| eexists; reflexivity].
  cbn [negb orb].
  destruct (Z.ltb_spec (py_len (dict_get "password" "" data)) 6) as [Hl | Hl];
    [eexists; reflexivity |].
  exfalso. apply Hinv. repeat split; assumption.
Qed.

Lemma valid_registration_dec data :
  valid_registration data \/ ~ valid_registration data.
Proof.
  unfold valid_registration.
  destruct (truthy (py_strip (dict_get "username" "" data)));
    [| right; intros (H & _); discriminate].
  destruct (truthy (py_strip (dict_get "email" "" data)));
    [| right; intros (_ & H & _); discriminate].
  destruct (truthy (dict_get "password" "" data));
    [| right; intros (_ & _ & H & _); discriminate].
  destruct (Z.le_gt_cases 6 (py_len (dict_get "password" "" data)));
    [left; repeat split; assumption | right; intros (_ & _ & _ & H'); lia].
Qed.

(** What [login] does with a body that passes its validation. *)
Lemma login_valid_run B data s :
  valid_login data ->
  let name := py_strip (dict_get "username" "" data) in
  login B (POST data) s
  = if truthy_opt (MONGODB_URI (world s))
    then
      match readings (world s) with
      | Unreachable err =>
          (inr (Json generic_store_failure),
           called (FindByNameOrEmail name name) (connected s))
      | Reachable _ =>
          match find (name_or_email name name) (users s) with
          | Some u =>
              match refuses B (dict_get "password" "" data),
                    unreadable B (password u) with
              | Some msg, _ | None, Some msg =>
                  (inl (ValueError msg),
                   called (FindByNameOrEmail name name) (connected s))
              | None, None =>
                  if checkpw B (dict_get "password" "" data) (password u)
                  then (inr (Success "/dashboard"), logged_in name u s)
                  else
                    (inr (Json (mkResponse 401
                                  (BError "Invalid username or password"))),
                     called (FindByNameOrEmail name name) (connected s))
              end
          | None =>
              (inr (Json (mkResponse 401
                            (BError "Invalid username or password"))),
               called (FindByNameOrEmail name name) (connected s))
          end
      end
    else
      (inl (ValueError "MongoDB connection string is not set. Please set MONGODB_URI in .env file"),
       s).
Proof.
  intros (Hu & Hp) name. subst name. unfold login.
  rewrite Hu, Hp. cbn [negb orb].
  unfold strying, sbind at 1. rewrite get_users_collection_run.
  destruct (truthy_opt (MONGODB_URI (world s))); [| reflexivity].
  unfold sbind at 1, server_read. simpl.
  destruct (readings (world s)) as [docs | err] eqn:Hr; [| reflexivity].
  destruct (find _ (users s)) as [u |]; [| reflexivity].
  destruct (refuses B (dict_get "password" "" data)); [reflexivity |].
  destruct (unreadable B (password u)); [reflexivity |].
  destruct (checkpw B (dict_get "password" "" data) (password u));
    reflexivity.
Qed.

Lemma login_invalid_run B data s :
  ~ valid_login data ->
  login B (POST data) s
  = (inr (Json (mkResponse 400 (BError "Username and password are required"))),
     s).
Proof.
  intros Hinv. unfold login.
  destruct (truthy (py_strip (dict_get "username" "" data))) eqn:Hu;
    [| reflexivity].
  destruct (truthy (dict_get "password" "" data)) eqn:Hp; [| reflexivity].
  exfalso. apply Hinv. now split.
Qed.

Lemma valid_login_dec data : valid_login data \/ ~ valid_login data.
Proof.
  unfold valid_login.
  destruct (truthy (py_strip (dict_get "username" "" data)));
    [| right; intros (H & _); discriminate].
  destruct (truthy (dict_get "password" "" data));
    [left; now split | right; intros (_ & H); discriminate].
Qed.

Lemma find_name_or_email_none name mail us :
  find (name_or_email name mail) us = None ->
  forall x, In x us -> username x <> name /\ email x <> mail.
Proof.
  intros Hnone x Hx. pose proof (find_none _ _ Hnone x Hx) as H.
  unfold name_or_email in H. apply orb_false_elim in H as [H1 H2].
  apply String.eqb_neq in H1, H2. now split.
Qed.

Lemma NoDup_snoc {A} (l : list A) a : NoDup l -> ~ In a l -> NoDup (l ++ [a]).
Proof.
  intros Hnd Hnin. apply NoDup_rev in Hnd.
  rewrite <- (rev_involutive (l ++ [a])). apply NoDup_rev.
  rewrite rev_app_distr. simpl. constructor; [| exact Hnd].
  now rewrite <- in_rev.
Qed.

(** A successful registration, read backwards. *)
Lemma register_success_inv B data s :
  fst (register B (POST data) s) = inr (Success "/dashboard") ->
  valid_registration data
  /\ server_up s
  /\ (forall x, In x (users s) ->
        username x <> py_strip (dict_get "username" "" data)
        /\ email x <> py_strip (dict_get "email" "" data))
  /\ refuses B (dict_get "password" "" data) = None
  /\ snd (register B (POST data) s) = registered (new_user B data s) s.
Proof.
  destruct (valid_registration_dec data) as [Hv | Hv].
  2:{ destruct (register_invalid_run B data s Hv) as (msg & ->). discriminate. }
  rewrite (register_valid_run B data s Hv). unfold server_up.
  destruct (truthy_opt (MONGODB_URI (world s))); [| discriminate].
  destruct (readings (world s)) as [docs | err]; [| discriminate].
  destruct (find _ (users s)) as [u |] eqn:Hf; [discriminate |].
  destruct (refuses B (dict_get "password" "" data)); [discriminate |].
  intros _. split; [exact Hv |].
  split; [split; [reflexivity | now exists docs] |].
  split; [| split; reflexivity].
  intros x Hx. now apply (find_name_or_email_none _ _ _ Hf).
Qed.

(** A registration that does not succeed changes neither users nor
    session. *)
Lemma register_failure_frame B req s :
  fst (register B req s) <> inr (Success "/dashboard") ->
  users (snd (register B req s)) = users s
  /\ session (snd (register B req s)) = session s.
Proof.
  destruct req as [| data]; [intros _; now split |].
  destruct (valid_registration_dec data) as [Hv | Hv].
  2:{ destruct (register_invalid_run B data s Hv) as (msg & ->). now split. }
  rewrite (register_valid_run B data s Hv).
  destruct (truthy_opt (MONGODB_URI (world s))); [| now split].
  destruct (readings (world s)) as [docs | err]; [| now split].
  destruct (find _ (users s)) as [u |]; [now split |].
  destruct (refuses B (dict_get "password" "" data)); [now split |].
  intros H. now contradiction H.
Qed.

Lemma reply_success_dec (r : Exception + Reply) :
  r = inr (Success "/dashboard") \/ r <> inr (Success "/dashboard").
Proof.
  destruct r as [e | [r | r | t m | c st m]]; try (right; discriminate).
  destruct (String.eqb_spec r "/dashboard") as [-> | Hne];
    [now left | right; congruence].
Qed.

(** X13.  [register] succeeds exactly on a POST whose body passes the
    validation (username, e-mail and password not empty after stripping
    the first two, password of six characters or more) while the server
    is configured and answers, no user has the same username or the same
    e-mail, and [bcrypt] does not refuse the password.  It then appends
    one document, holding the stripped username and e-mail and the bcrypt
    hash of the password, and puts that user in the session.  When all of
    this holds except that [bcrypt] refuses the password, the handler
    raises [ValueError], which it does not catch, after it has looked the
    name up.  In every case but the success the users and the session are
    as before. *)
Theorem register_success_exactly :
  forall (B : Bcrypt) (req : AuthRequest) (s : Site),
    (fst (register B req s) = inr (Success "/dashboard")
     <-> exists data,
           req = POST data /\ valid_registration data /\ server_up s
           /\ (forall x, In x (users s) ->
                 username x <> py_strip (dict_get "username" "" data)
                 /\ email x <> py_strip (dict_get "email" "" data))
           /\ refuses B (dict_get "password" "" data) = None)
    /\ (forall data,
          req = POST data ->
          fst (register B req s) = inr (Success "/dashboard") ->
          snd (register B req s) = registered (new_user B data s) s)
    /\ (forall data,
          req = POST data -> valid_registration data -> server_up s ->
          (forall x, In x (users s) ->
             username x <> py_strip (dict_get "username" "" data)
             /\ email x <> py_strip (dict_get "email" "" data)) ->
          forall msg,
            refuses B (dict_get "password" "" data) = Some msg ->
            register B req s
            = (inl (ValueError msg),
               called (FindByNameOrEmail
                         (py_strip (dict_get "username" "" data))
                         (py_strip (dict_get "email" "" data)))
                 (connected s)))
    /\ (fst (register B req s) <> inr (Success "/dashboard") ->
        users (snd (register B req s)) = users s
        /\ session (snd (register B req s)) = session s).
Proof.
  intros B req s.
  split; [| split; [| split]].
  - split.
    + intros Hok. destruct req as [| data]; [discriminate |].
      destruct (register_success_inv B data s Hok) as (Hv & Hup & Hfresh & Hb & _).
      exists data. split; [reflexivity |]. split; [exact Hv |].
      split; [exact Hup |]. split; [exact Hfresh | exact Hb].
    + intros (data & -> & Hv & (Hu & docs & Hr) & Hfresh & Hb).
      rewrite (register_valid_run B data s Hv), Hu, Hr.
      destruct (find _ (users s)) as [u |] eqn:Hf.
      * apply find_some in Hf as [Hin Hm].
        destruct (Hfresh u Hin) as [H1 H2].
        unfold name_or_email in Hm. apply orb_prop in Hm as [Hm | Hm];
          apply String.eqb_eq in Hm; contradiction.
      * now rewrite Hb.
  - intros data -> Hok.
    now destruct (register_success_inv B data s Hok) as (_ & _ & _ & _ & ->).
  - intros data -> Hv (Hu & docs & Hr) Hfresh msg Hb.
    rewrite (register_valid_run B data s Hv), Hu, Hr.
    destruct (find _ (users s)) as [u |] eqn:Hf.
    + apply find_some in Hf as [Hin Hm].
      destruct (Hfresh u Hin) as [H1 H2].
      unfold name_or_email in Hm. apply orb_prop in Hm as [Hm | Hm];
        apply String.eqb_eq in Hm; contradiction.
    + now rewrite Hb.
  - apply register_failure_frame.
Qed.

(** X14.  [register] keeps usernames pairwise distinct and e-mail
    addresses pairwise distinct, whatever the request, and it never
    changes or removes a stored user: the collection afterwards is the old
    one, or the old one followed by one new document. *)
Theorem register_keeps_users_unique :
  forall (B : Bcrypt) (req : AuthRequest) (s : Site),
    unique_users (users s) ->
    unique_users (users (snd (register B req s)))
    /\ (users (snd (register B req s)) = users s
        \/ exists doc, users (snd (register B req s)) = users s ++ [doc]).
Proof.
  intros B req s [Hn He].
  destruct (reply_success_dec (fst (register B req s))) as [Hok | Hko].
  - destruct req as [| data]; [discriminate |].
    destruct (register_success_inv B data s Hok) as (_ & _ & Hfresh & _ & ->).
    simpl. split; [| right; eexists; reflexivity].
    unfold unique_users. rewrite !map_app. simpl. split.
    + apply NoDup_snoc; [exact Hn |]. rewrite in_map_iff.
      intros (x & Hx & Hin). destruct (Hfresh x Hin) as [H1 _]. now apply H1.
    + apply NoDup_snoc; [exact He |]. rewrite in_map_iff.
      intros (x & Hx & Hin). destruct (Hfresh x Hin) as [_ H2]. now apply H2.
  - destruct (register_failure_frame B req s Hko) as [-> _].
    split; [now split | now left].
Qed.

Lemma register_keeps_users_unique_witness :
  let B := mkBcrypt (fun p salt => (salt ++ p)%string) (fun p h => true)
             (fun p => None) (fun h => None) (fun p salt => eq_refl) in
  let alice := mkUserDoc "65a0000000000000000000a1" "alice" "alice@farm.example"
                 "salt0secret1" 1690000000000 in
  let s := mkSite (mkWorld (Some "mongodb://db") (Reachable []) 1700000000000 [])
             [alice] None "salt1" "65a0000000000000000000b2" [] in
  let req := POST [("username", " bob "); ("email", "bob@farm.example");
                   ("password", "hunter22")] in
  unique_users (users (snd (register B req s)))
  /\ (users (snd (register B req s)) = users s
      \/ exists doc, users (snd (register B req s)) = users s ++ [doc]).
Proof.
  intros B alice s req.
  apply (register_keeps_users_unique B req s).
  split; repeat constructor; simpl; propositional.
Defined.

Lemma find_app_later {A} (f : A -> bool) l a :
  (forall x, In x l -> f x = false) -> f a = true ->
  find f (l ++ [a]) = Some a.
Proof.
  induction l as [| y l IH]; simpl; intros Hl Ha.
  - now rewrite Ha.
  - rewrite (Hl y) by now left. apply IH; [| exact Ha].
    intros x Hx. apply Hl. now right.
Qed.

(** X15.  After a successful registration the new account can log in
    with the password it registered with, by its username and by its
    e-mail address, surrounding blanks in the name being ignored, provided
    [bcrypt] accepts a password against its own hash and no earlier
    account has the new username as its e-mail address or the new e-mail
    address as its username.  The login puts the new user in the session
    with the remember flag set. *)
Theorem register_then_login :
  forall (B : Bcrypt) (data : list (string * string)) (s s2 : Site)
         (name : string),
    (forall p salt, checkpw B p (hashpw B p salt) = true) ->
    fst (register B (POST data) s) = inr (Success "/dashboard") ->
    (forall x, In x (users s) ->
       email x <> py_strip (dict_get "username" "" data)
       /\ username x <> py_strip (dict_get "email" "" data)) ->
    py_strip name = py_strip (dict_get "username" "" data)
    \/ py_strip name = py_strip (dict_get "email" "" data) ->
    users s2 = users (snd (register B (POST data) s)) ->
    server_up s2 ->
    let attempt := POST [("username", name);
                         ("password", dict_get "password" "" data)] in
    fst (login B attempt s2) = inr (Success "/dashboard")
    /\ session (snd (login B attempt s2))
       = Some (mkSession (inserted_id s) true).
Proof.
  intros B data s s2 name Hbcrypt Hok Hcross Hname Husers Hup attempt.
  destruct (register_success_inv B data s Hok)
    as (Hv & _ & Hfresh & Hb & Hpost).
  rewrite Hpost in Husers. simpl in Husers.
  destruct Hv as (Hu & He & Hp & _).
  assert (Hvalid : valid_login [("username", name);
                                ("password", dict_get "password" "" data)]).
  { unfold valid_login, dict_get. simpl. split; [| exact Hp].
    destruct Hname as [-> | ->]; assumption. }
  unfold attempt. rewrite (login_valid_run B _ s2 Hvalid).
  destruct Hup as (Hup & docs & Hr). rewrite Hup, Hr.
  change (dict_get "username" ""
            [("username", name); ("password", dict_get "password" "" data)])
    with name.
  change (dict_get "password" ""
            [("username", name); ("password", dict_get "password" "" data)])
    with (dict_get "password" "" data).
  assert (Hfind : find (name_or_email (py_strip name) (py_strip name)) (users s2)
                  = Some (new_user B data s)).
  { rewrite Husers. apply find_app_later.
    - intros x Hx. destruct (Hfresh x Hx) as [F1 F2].
      destruct (Hcross x Hx) as [C1 C2].
      unfold name_or_email. apply orb_false_intro; apply String.eqb_neq;
        destruct Hname as [-> | ->]; assumption.
    - unfold name_or_email, new_user. simpl.
      apply orb_true_intro.
      destruct Hname as [-> | ->];
        [left | right]; apply String.eqb_refl. }
  rewrite Hfind.
  change (password (new_user B data s))
    with (hashpw B (dict_get "password" "" data) (gensalt s)).
  rewrite Hb, (own_hash_readable B), Hbcrypt. simpl. split; reflexivity.
Qed.

Lemma register_then_login_witness :
  let B := example_bcrypt in
  let alice := mkUserDoc "65a0000000000000000000a1" "alice" "alice@farm.example"
                 "$2b$secret1" 1690000000000 in
  let s := mkSite (mkWorld (Some "mongodb://db") (Reachable []) 1700000000000 [])
             [alice] None "salt1" "65a0000000000000000000b2" [] in
  let data := [("username", " bob "); ("email", "bob@farm.example");
               ("password", "hunter22")] in
  let s2 := snd (register B (POST data) s) in
  let attempt := POST [("username", "bob@farm.example  ");
                       ("password", dict_get "password" "" data)] in
  fst (login B attempt s2) = inr (Success "/dashboard")
  /\ session (snd (login B attempt s2))
     = Some (mkSession (inserted_id s) true).
Proof.
  intros B alice s data s2 attempt.
  apply (register_then_login B data s s2 "bob@farm.example  ").
  - intros p salt. apply String.eqb_refl.
  - reflexivity.
  - intros x [<- | []]. split; discriminate.
  - right. reflexivity.
  - reflexivity.
  - split; [reflexivity | eexists; reflexivity].
Defined.

(** X16.  With the server up and a body that passes the validation,
    [login] looks up the first user whose username or e-mail address is
    the stripped name.  It succeeds when [bcrypt] reads that user's hash
    and accepts the password for it; the session then holds that user
    with the remember flag.  When no such user exists, or [bcrypt] reads
    the hash and rejects the password, the reply is one and the same 401
    and the session is as it was.  When such a user exists and [bcrypt]
    refuses the password or cannot read the hash, the handler raises
    [ValueError], which it does not catch: a password that [bcrypt]
    refuses is answered 401 only for a name that no user bears.  [login]
    never changes the users. *)
Theorem login_accepts_first_match :
  forall (B : Bcrypt) (data : list (string * string)) (s : Site),
    valid_login data -> server_up s ->
    let name := py_strip (dict_get "username" "" data) in
    let pw := dict_get "password" "" data in
    let attempt := login B (POST data) s in
    (forall u,
       find (name_or_email name name) (users s) = Some u ->
       refuses B pw = None -> unreadable B (password u) = None ->
       checkpw B pw (password u) = true ->
       fst attempt = inr (Success "/dashboard")
       /\ session (snd attempt) = Some (mkSession (user_id u) true))
    /\ ((find (name_or_email name name) (users s) = None
         \/ exists u, find (name_or_email name name) (users s) = Some u
                      /\ refuses B pw = None
                      /\ unreadable B (password u) = None
                      /\ checkpw B pw (password u) = false) ->
        fst attempt
        = inr (Json (mkResponse 401 (BError "Invalid username or password")))
        /\ session (snd attempt) = session s)
    /\ (forall u,
          find (name_or_email name name) (users s) = Some u ->
          refuses B pw <> None \/ unreadable B (password u) <> None ->
          (exists msg, fst attempt = inl (ValueError msg))
          /\ session (snd attempt) = session s)
    /\ users (snd attempt) = users s.
Proof.
  intros B data s Hv (Hu & docs & Hr) name pw attempt. unfold attempt.
  rewrite (login_valid_run B data s Hv). fold name. fold pw. rewrite Hu, Hr.
  destruct (find (name_or_email name name) (users s)) as [u |] eqn:Hf.
  2:{ split; [| split; [| split]]; [| | | reflexivity].
      - intros u' Heq. discriminate.
      - intros _. now split.
      - intros u' Heq. discriminate. }
  destruct (refuses B pw) as [msg |] eqn:Hb; simpl.
  { split; [| split; [| split]]; [| | | reflexivity].
    - intros u' _ H. discriminate.
    - intros [H | (u' & _ & H & _)]; discriminate.
    - intros u' _ _. split; [eexists |]; reflexivity. }
  destruct (unreadable B (password u)) as [msg |] eqn:Hh; simpl.
  { split; [| split; [| split]]; [| | | reflexivity].
    - intros u' Heq _ H. injection Heq as <-. congruence.
    - intros [H | (u' & Heq & _ & H & _)]; [discriminate |].
      injection Heq as <-. congruence.
    - intros u' _ _. split; [eexists |]; reflexivity. }
  destruct (checkpw B pw (password u)) eqn:Hc.
  - split; [| split; [| split]]; [| | | reflexivity].
    + intros u' Heq _ _ _. injection Heq as <-. now split.
    + intros [H | (u' & Heq & _ & _ & Hc')]; [discriminate |].
      injection Heq as <-. congruence.
    + intros u' Heq [H | H]; [congruence |].
      injection Heq as <-. congruence.
  - split; [| split; [| split]]; [| | | reflexivity].
    + intros u' Heq _ _ Hc'. injection Heq as <-. congruence.
    + intros _. now split.
    + intros u' Heq [H | H]; [congruence |].
      injection Heq as <-. congruence.
Qed.

Lemma login_accepts_first_match_witness :
  let B := example_bcrypt in
  let alice := mkUserDoc "65a0000000000000000000a1" "alice" "alice@farm.example"
                 "$2b$secret1" 1690000000000 in
  let s := mkSite (mkWorld (Some "mongodb://db") (Reachable []) 1700000000000 [])
             [alice] None "salt1" "65a0000000000000000000b2" [] in
  fst (login B (POST [("username", "alice"); ("password", "guess")]) s)
  = fst (login B (POST [("username", "nobody"); ("password", "guess")]) s).
Proof.
  intros B alice s.
  destruct (login_accepts_first_match B
              [("username", "alice"); ("password", "guess")] s)
    as (_ & Hwrong & _);
    [split; reflexivity | split; [reflexivity | eexists; reflexivity] |].
  destruct (login_accepts_first_match B
              [("username", "nobody"); ("password", "guess")] s)
    as (_ & Hnone & _);
    [split; reflexivity | split; [reflexivity | eexists; reflexivity] |].
  destruct Hwrong as [-> _].
  { right. exists alice. repeat split. }
  destruct Hnone as [-> _]; [now left | reflexivity].
Defined.

(** X17.  When the server is configured but does not answer, [register]
    and [login] reply 500 with the fixed text "Database error occurred",
    whatever the text of the store's error, and leave users and session
    untouched. *)
Theorem account_store_failure_is_generic :
  forall (B : Bcrypt) (s : Site) (err : string)
         (body : list (string * string)),
    truthy_opt (MONGODB_URI (world s)) = true ->
    readings (world s) = Unreachable err ->
    (valid_registration body ->
     fst (register B (POST body) s) = inr (Json generic_store_failure)
     /\ users (snd (register B (POST body) s)) = users s
     /\ session (snd (register B (POST body) s)) = session s)
    /\ (valid_login body ->
        fst (login B (POST body) s) = inr (Json generic_store_failure)
        /\ users (snd (login B (POST body) s)) = users s
        /\ session (snd (login B (POST body) s)) = session s).
Proof.
  intros B s err body Hu Hr. split; intros Hv.
  - rewrite (register_valid_run B body s Hv), Hu, Hr. repeat split.
  - rewrite (login_valid_run B body s Hv), Hu, Hr. repeat split.
Qed.

Lemma account_store_failure_is_generic_witness :
  let B := example_bcrypt in
  let s := mkSite (mkWorld (Some "mongodb://db")
                     (Unreachable "db.internal:27017: [Errno 111] Connection refused")
                     1700000000000 [])
             [] None "salt1" "65a0000000000000000000b2" [] in
  let body := [("username", "bob"); ("email", "bob@farm.example");
               ("password", "hunter22")] in
  fst (register B (POST body) s) = inr (Json generic_store_failure)
  /\ fst (login B (POST body) s) = inr (Json generic_store_failure).
Proof.
  intros B s body.
  destruct (account_store_failure_is_generic B s
              "db.internal:27017: [Errno 111] Connection refused" body
              eq_refl eq_refl) as [Hreg Hlog].
  split.
  - apply Hreg. repeat split. vm_compute. discriminate.
  - apply Hlog. split; reflexivity.
Defined.

(** X18.  [register] and [login] refuse an incomplete body before they
    do anything else: with the username (or, for [register], the e-mail
    address) empty after stripping, the password empty, or, for
    [register], the password shorter than six characters, the reply is a
    400 and the site, server calls included, is exactly as before. *)
Theorem account_validation_precedes_server :
  forall (B : Bcrypt) (body : list (string * string)) (s : Site),
    (~ valid_registration body ->
     exists msg,
       register B (POST body) s
       = (inr (Json (mkResponse 400 (BError msg))), s))
    /\ (~ valid_login body ->
        login B (POST body) s
        = (inr (Json (mkResponse 400
                        (BError "Username and password are required"))), s)).
Proof.
  intros B body s. split.
  - apply register_invalid_run.
  - apply login_invalid_run.
Qed.

Lemma load_user_run uid s :
  load_user uid s
  = if truthy_opt (MONGODB_URI (world s))
    then
      match ObjectId uid with
      | None => (inr None, connected s)
      | Some oid =>
          match readings (world s) with
          | Reachable _ =>
              (inr (option_map User_init
                      (find (fun u => String.eqb (user_id u) oid) (users s))),
               called (FindById oid) (connected s))
          | Unreachable _ => (inr None, called (FindById oid) (connected s))
          end
      end
    else (inr None, s).
Proof.
  unfold load_user, strying_all, sbind at 1.
  change (lift get_db) with get_users_collection.
  rewrite get_users_collection_run.
  destruct (truthy_opt (MONGODB_URI (world s))); [| reflexivity].
  destruct (ObjectId uid) as [oid |]; [| reflexivity].
  unfold sbind, server_read. simpl.
  destruct (readings (world s)); reflexivity.
Qed.

(** X19.  [load_user] never raises and never changes users or session.
    It returns a user only when the server is configured and answers and
    the identifier is a well-formed ObjectId borne by a stored user, and
    then it returns the first such user; a missing connection string, a
    store failure and a malformed identifier all look like an unknown
    user.  No query is sent for a malformed identifier. *)
Theorem load_user_swallows_failures :
  forall (uid : string) (s : Site),
    (exists o, fst (load_user uid s) = inr o)
    /\ users (snd (load_user uid s)) = users s
    /\ session (snd (load_user uid s)) = session s
    /\ (forall u,
          fst (load_user uid s) = inr (Some u) ->
          server_up s
          /\ exists oid doc,
               ObjectId uid = Some oid /\ In doc (users s)
               /\ user_id doc = oid /\ u = User_init doc)
    /\ (server_up s ->
        forall oid, ObjectId uid = Some oid ->
          fst (load_user uid s)
          = inr (option_map User_init
                   (find (fun u => String.eqb (user_id u) oid) (users s))))
    /\ (~ server_up s \/ ObjectId uid = None ->
        fst (load_user uid s) = inr None)
    /\ (ObjectId uid = None -> calls (snd (load_user uid s)) = calls s).
Proof.
  intros uid s. rewrite load_user_run. unfold server_up.
  destruct (truthy_opt (MONGODB_URI (world s))) eqn:Hu.
  2:{ simpl. split; [eexists; reflexivity |]. split; [reflexivity |].
      split; [reflexivity |]. split; [discriminate |].
      split; [intros [H _]; discriminate |].
      split; intros; reflexivity. }
  destruct (ObjectId uid) as [oid |] eqn:Ho.
  2:{ simpl. split; [eexists; reflexivity |]. split; [reflexivity |].
      split; [reflexivity |]. split; [discriminate |].
      split; [intros _ oid H; discriminate |].
      split; intros; reflexivity. }
  destruct (readings (world s)) as [docs | err] eqn:Hr; simpl.
  - split; [eexists; reflexivity |]. split; [reflexivity |].
    split; [reflexivity |]. split; [| split; [| split]].
    + intros u Hsome. injection Hsome as Hsome.
      destruct (find _ (users s)) as [doc |] eqn:Hf; [| discriminate].
      injection Hsome as <-. apply find_some in Hf as [Hin Heq].
      apply String.eqb_eq in Heq.
      split; [split; [reflexivity | now exists docs] |].
      exists oid, doc. repeat split; assumption.
    + intros _ oid' Heq. now injection Heq as <-.
    + intros [Hdown | Hbad]; [| discriminate].
      exfalso. apply Hdown. split; [reflexivity | now exists docs].
    + discriminate.
  - split; [eexists; reflexivity |]. split; [reflexivity |].
    split; [reflexivity |]. split; [| split; [| split]].
    + discriminate.
    + intros [_ (docs & Hd)]. discriminate.
    + reflexivity.
    + discriminate.
Qed.

Lemma health_run s :
  health s
  = if truthy_opt (MONGODB_URI (world s))
    then
      match readings (world s) with
      | Reachable _ =>
          (inr (HealthReport 200 "ok" "connected"), called Ping (connected s))
      | Unreachable err =>
          (inr (HealthReport 503 "degraded" ("error: " ++ err)%string),
           called Ping (connected s))
      end
    else
      (inr (HealthReport 503 "degraded"
              "error: MongoDB connection string is not set. Please set MONGODB_URI in .env file"),
       s).
Proof.
  unfold health, strying_all, sbind at 1.
  change (lift get_db) with get_users_collection.
  rewrite get_users_collection_run.
  destruct (truthy_opt (MONGODB_URI (world s))); [| reflexivity].
  unfold sbind, server_read. simpl.
  destruct (readings (world s)); reflexivity.
Qed.

(** X20.  [health] never raises.  It reports 200 exactly when the
    connection string is set and the server answers the ping, and the
    report is then "ok" and "connected"; otherwise it reports 503
    "degraded" with the text of the failure after "error: ", be it the
    store's error or the message of the missing connection string, which
    the three query handlers let escape as an exception.  It changes
    neither users nor session. *)
Theorem health_reports_every_failure :
  forall (s : Site),
    (exists code state mongo,
       fst (health s) = inr (HealthReport code state mongo)
       /\ (code = 200 <-> server_up s)
       /\ (code = 200 \/ code = 503)
       /\ (code = 200 -> state = "ok" /\ mongo = "connected")
       /\ (code = 503 ->
           state = "degraded"
           /\ ((truthy_opt (MONGODB_URI (world s)) = false
                /\ exists msg,
                     fst (api_sensors (world s)) = inl (ValueError msg)
                     /\ mongo = ("error: " ++ msg)%string)
               \/ exists err,
                    readings (world s) = Unreachable err
                    /\ mongo = ("error: " ++ err)%string)))
    /\ users (snd (health s)) = users s
    /\ session (snd (health s)) = session s.
Proof.
  intros s. rewrite health_run. unfold server_up.
  destruct (truthy_opt (MONGODB_URI (world s))) eqn:Hu.
  - destruct (readings (world s)) as [docs | err] eqn:Hr; simpl.
    + split; [| now split].
      exists 200, "ok", "connected". split; [reflexivity |].
      split; [| split; [now left | split; [now split | discriminate]]].
      split; [intros _; split; [reflexivity | now exists docs] | reflexivity].
    + split; [| now split].
      exists 503, "degraded", ("error: " ++ err)%string.
      split; [reflexivity |].
      split; [| split; [now right | split; [discriminate |]]].
      * split; [discriminate | intros [_ (docs & Hd)]; discriminate].
      * intros _. split; [reflexivity |]. right. now exists err.
  - simpl. split; [| now split].
    eexists 503, "degraded", _. split; [reflexivity |].
    split; [| split; [now right | split; [discriminate |]]].
    + split; [discriminate | intros [H _]; discriminate].
    + intros _. split; [reflexivity |]. left. split; [reflexivity |].
      unfold api_sensors, try_except_PyMongoError, bind, get_collection, get_db.
      rewrite Hu. eexists. split; reflexivity.
Qed.

End Runtime.

(* ================================================================== *)
(** * The handlers on concrete requests *)
(* ================================================================== *)

(** The statements above, applied to stores of a few readings, with
    [ascii_int] for [int], [exact_mean] for [$avg] and a first batch of
    101 documents. *)

Lemma timeseries_missing_sensor_rejected_before_store_witness :
  let req := [("hours", "12"); ("location", "field-1")] in
  let w := mkWorld (Some "mongodb://db") (Unreachable "down") 1700000000000 [] in
  fst (api_timeseries ascii_int batch_of_101 req w)
  = inr (mkResponse 400 (BError "Missing required parameter: sensor"))
  /\ snd (api_timeseries ascii_int batch_of_101 req w) = w
  /\ accesses (snd (api_timeseries ascii_int batch_of_101 req w)) = accesses w.
Proof.
  intros req w.
  apply (timeseries_missing_sensor_rejected_before_store
           ascii_int batch_of_101 req w).
  reflexivity.
Defined.


Lemma timeseries_empty_location_is_omitted_witness :
  let bare := mkReading "soil" (3 # 1) None 1699999999000 Absent in
  let null := mkReading "soil" (5 # 1) None 1699999999200 Null in
  let tagged := mkReading "soil" (4 # 1) None 1699999999500 (Value "field-2") in
  let other := mkReading "temperature" (20 # 1) None 1699999999700
                 (Value "field-2") in
  let req := [("sensor", "soil"); ("location", "")] in
  let w := mkWorld (Some "mongodb://db")
             (Reachable [tagged; other; bare; null]) 1700000000000 [] in
  api_timeseries ascii_int batch_of_101 req w
  = api_timeseries ascii_int batch_of_101 [("sensor", "soil")] w
  /\ exists out,
       api_timeseries ascii_int batch_of_101 req w
       = (inr (mkResponse 200 (BSeries out)),
          logged w [Connect;
                    Find (mkQuery "soil" (1700000000000 - 24 * ms_per_hour) None)
                      1000])
       /\ In bare out /\ In null out /\ In tagged out /\ ~ In other out.
Proof.
  intros bare null tagged other req w.
  destruct (timeseries_empty_location_is_omitted ascii_int batch_of_101 req w
              eq_refl) as (Hsame & _ & _ & Hall).
  split; [exact Hsame |].
  destruct (Hall "soil" (1700000000000 - 24 * ms_per_hour) 1000
              [tagged; other; bare; null]) as (out & Hrun & Honly & Hin).
  - repeat split; try reflexivity; try (unfold int64_max; lia).
    exists 24. split; reflexivity.
  - exists out. split; [exact Hrun |].
    assert (Hfull : 1000 = 0
                    \/ Z.of_nat (List.length
                                   (window_of (1700000000000 - 24 * ms_per_hour)
                                      "soil" [tagged; other; bare; null]))
                       <= 1000) by (right; vm_compute; discriminate).
    split; [| split; [| split]].
    + apply (Hin Hfull bare); [simpl; auto | reflexivity |].
      vm_compute; discriminate.
    + apply (Hin Hfull null); [simpl; auto | reflexivity |].
      vm_compute; discriminate.
    + apply (Hin Hfull tagged); [simpl; auto | reflexivity |].
      vm_compute; discriminate.
    + intros H. apply Honly in H as (_ & H & _). discriminate H.
Defined.

(** The location filtering contract fails as stated for a supplied value
    that is the empty string, whatever the interpreter and the driver: the
    request [?sensor=soil&location=] is answered with a reading tagged
    [field-2]. *)
Lemma supplied_empty_location_does_not_filter :
  ~ exists py_int first_batch, supplied_location_filters py_int first_batch.
Proof.
  intros (py_int & first_batch & Hclaim).
  pose (r := mkReading "soil" (30 # 1) (Some "%") 1699999990000 (Value "field-2")).
  pose (w := mkWorld (Some "mongodb://db") (Reachable [r]) 1700000000000 []).
  assert (Hrun : fst (api_timeseries py_int first_batch
                        [("sensor", "soil"); ("location", "")] w)
                 = inr (mkResponse 200 (BSeries [r]))) by reflexivity.
  specialize (Hclaim [("sensor", "soil"); ("location", "")] w "" [r]
                eq_refl Hrun r (or_introl eq_refl)).
  discriminate Hclaim.
Qed.

Lemma timeseries_location_filter_witness :
  let r1 := mkReading "soil" (30 # 1) (Some "%") 1699999990000 (Value "field-1") in
  let r2 := mkReading "soil" (31 # 1) (Some "%") 1699999991000 (Value "field-2") in
  let w := mkWorld (Some "mongodb://db") (Reachable [r1; r2]) 1700000000000 [] in
  let req := [("sensor", "soil"); ("location", "field-1")] in
  exists out,
    fst (api_timeseries ascii_int batch_of_101 req w) = inr (mkResponse 200 (BSeries out))
    /\ forall r, In r out -> location r = Value "field-1".
Proof.
  intros r1 r2 w req.
  destruct (timeseries_location_filter ascii_int batch_of_101 req w "soil"
              (1700000000000 - 24 * 3600000) 1000 [r1; r2])
    as (out & Hrun & Hloc & _).
  - repeat split; try reflexivity; try (unfold int64_max; lia).
    exists 24. split; reflexivity.
  - exists out. split; [exact Hrun |].
    apply (Hloc "field-1"); [reflexivity | discriminate].
Defined.

Lemma timeseries_keeps_most_recent_witness :
  let r1 := mkReading "soil" (30 # 1) (Some "%") 1699999991000 (Value "field-1") in
  let r2 := mkReading "soil" (31 # 1) (Some "%") 1699999992000 Absent in
  let r3 := mkReading "soil" (32 # 1) (Some "%") 1699999993000 (Value "field-2") in
  let other := mkReading "temperature" (20 # 1) None 1699999994000 Absent in
  let w := mkWorld (Some "mongodb://db") (Reachable [r2; r1; other; r3])
             1700000000000 [] in
  fst (api_timeseries ascii_int batch_of_101 [("sensor", "soil"); ("limit", "2")] w)
  = inr (mkResponse 200 (BSeries [r2; r3])).
Proof.
  intros r1 r2 r3 other w.
  destruct (timeseries_keeps_most_recent ascii_int batch_of_101
              [("sensor", "soil"); ("limit", "2")] w "soil"
              (1700000000000 - 24 * 3600000) 2 [r2; r1; other; r3])
    as (out & Hrun & _ & _ & _ & Hthree).
  - repeat split; try reflexivity; try (unfold int64_max; lia).
    exists 24. split; reflexivity.
  - reflexivity.
  - reflexivity.
  - rewrite Hrun, (Hthree r1 r2 r3); try reflexivity.
    apply perm_swap.
Defined.



Lemma latest_view_without_sentinel_witness :
  let a1 := mkReading "soil" (30 # 1) (Some "%") 1699999991000 (Value "field-1") in
  let a2 := mkReading "soil" (31 # 1) (Some "%") 1699999995000 (Value "field-1") in
  let b1 := mkReading "soil" (32 # 1) (Some "%") 1699999993000 Absent in
  let b2 := mkReading "soil" (33 # 1) (Some "%") 1699999992000 Null in
  let w := mkWorld (Some "mongodb://db") (Reachable [a1; b1; a2; b2])
             1700000000000 [] in
  exists latest stats,
    fst (api_summary exact_mean w) = inr (mkResponse 200 (BSummary latest stats))
    /\ NoDup (map group_id latest)
    /\ (forall r, In r [a1; b1; a2; b2] ->
          exists e, In e latest /\ group_id e = group_id r)
    /\ (forall e, In e latest ->
          In e [a1; b1; a2; b2]
          /\ forall r, In r [a1; b1; a2; b2] -> group_id r = group_id e ->
                       timestamp r <= timestamp e).
Proof.
  intros a1 a2 b1 b2 w.
  apply (latest_view_without_sentinel exact_mean w (1700000000000 - 24 * ms_per_hour)).
  - repeat split.
  - intros r [<- | [<- | [<- | [<- | []]]]]; discriminate.
Defined.

Lemma latest_view_first_of_group_witness :
  let named := mkReading "soil" (40 # 1) (Some "%") 1699999995000
                 (Value "__none__") in
  let bare := mkReading "soil" (30 # 1) (Some "%") 1699999992000 Null in
  let w := mkWorld (Some "mongodb://db") (Reachable [named; bare])
             1700000000000 [] in
  exists latest stats,
    fst (api_summary exact_mean w) = inr (mkResponse 200 (BSummary latest stats))
    /\ NoDup (map group_id latest)
    /\ (forall r, In r [named; bare] ->
          exists e, In e latest /\ group_id e = group_id r)
    /\ (forall e, In e latest ->
          In e [named; bare]
          /\ forall r, In r [named; bare] -> group_id r = group_id e ->
               compare_location (location e) (location r) <> Gt
               /\ (compare_location (location e) (location r) = Eq ->
                   timestamp r <= timestamp e)).
Proof.
  intros named bare w.
  apply (latest_view_first_of_group exact_mean w (1700000000000 - 24 * ms_per_hour)).
  repeat split.
Defined.

Lemma timeseries_answer_within_sensor_and_window_witness :
  let r1 := mkReading "soil" (30 # 1) (Some "%") 1699999991000 (Value "field-1") in
  let old := mkReading "soil" (29 # 1) (Some "%") 1690000000000 (Value "field-1") in
  let other := mkReading "temperature" (20 # 1) None 1699999994000 Absent in
  let w := mkWorld (Some "mongodb://db") (Reachable [old; other; r1])
             1700000000000 [] in
  exists s h n docs,
    args_get "sensor" [("sensor", "soil"); ("hours", "2")] = Some s
    /\ int_arg ascii_int "hours" 24 [("sensor", "soil"); ("hours", "2")] w = (inr h, w)
    /\ readings w = Reachable docs
    /\ (forall r, In r [r1] ->
          In r docs /\ sensor r = s
          /\ clock w - h * ms_per_hour <= timestamp r)
    /\ accesses (snd (api_timeseries ascii_int batch_of_101 [("sensor", "soil"); ("hours", "2")] w))
       = accesses w
         ++ [Connect;
             Find (build_query s (clock w - h * ms_per_hour)
                     (args_get "location" [("sensor", "soil"); ("hours", "2")]))
               n].
Proof.
  intros r1 old other w.
  apply (timeseries_answer_within_sensor_and_window ascii_int batch_of_101
           [("sensor", "soil"); ("hours", "2")] w [r1]).
  reflexivity.
Defined.

Lemma timeseries_limit_bounds_witness :
  let r1 := mkReading "soil" (30 # 1) (Some "%") 1699999993000 (Value "field-1") in
  let r2 := mkReading "soil" (31 # 1) (Some "%") 1699999992000 Absent in
  let w := mkWorld (Some "mongodb://db") (Reachable [r1; r2]) 1700000000000 [] in
  exists out,
    fst (api_timeseries ascii_int batch_of_101 [("sensor", "soil"); ("limit", "0")] w)
    = inr (mkResponse 200 (BSeries out))
    /\ Permutation out [r1; r2].
Proof.
  intros r1 r2 w.
  destruct (timeseries_limit_bounds ascii_int batch_of_101 [("sensor", "soil"); ("limit", "0")] w
              "soil" (1700000000000 - 24 * 3600000) 0 [r1; r2])
    as (out & Hrun & _ & Hall & _).
  - repeat split; try reflexivity; try (unfold int64_max; lia).
    exists 24. split; reflexivity.
  - exists out. split; [exact Hrun |]. apply Hall. now left.
Defined.

Lemma handlers_without_connection_string_witness :
  let w := mkWorld None (Reachable []) 1700000000000 [] in
  (exists msg, api_sensors w = (inl (ValueError msg), w))
  /\ (exists msg, api_summary exact_mean w = (inl (ValueError msg), w)).
Proof.
  intros w.
  destruct (handlers_without_connection_string ascii_int exact_mean batch_of_101 [] w eq_refl) as (H1 & H2 & _).
  now split.
Defined.

Lemma timeseries_hours_out_of_range_witness :
  let w := mkWorld (Some "mongodb://db") (Reachable []) 1700000000000 [] in
  exists msg,
    api_timeseries ascii_int batch_of_101 [("sensor", "soil"); ("hours", "24000000000")] w
    = (inl (OverflowError msg), logged w [Connect]).
Proof.
  intros w.
  apply (timeseries_hours_out_of_range ascii_int batch_of_101
           [("sensor", "soil"); ("hours", "24000000000")] w
           "soil" "24000000000" 24000000000); try reflexivity.
  intros (x & m & Hx & _). discriminate Hx.
Defined.

Lemma stats_counts_cover_window_witness :
  let a := mkReading "soil" (30 # 1) None 1699999990000 (Value "field-1") in
  let b := mkReading "temperature" (21 # 1) None 1699999991000 Absent in
  let c := mkReading "soil" (32 # 1) None 1699999992000 Absent in
  let old := mkReading "soil" (33 # 1) None 1690000000000 Absent in
  let w := mkWorld (Some "mongodb://db") (Reachable [a; old; b; c])
             1700000000000 [] in
  exists latest stats,
    fst (api_summary exact_mean w) = inr (mkResponse 200 (BSummary latest stats))
    /\ list_sum (map stat_count stats) = 3%nat.
Proof.
  intros a b c old w.
  destruct (stats_counts_cover_window exact_mean w (1700000000000 - 24 * ms_per_hour)
              [a; old; b; c]) as (latest & stats & Hrun & Hsum & _).
  - repeat split.
  - exists latest, stats. split; [exact Hrun | exact Hsum].
Defined.

Lemma stats_sensors_have_latest_witness :
  let a := mkReading "soil" (30 # 1) None 1699999990000 (Value "field-1") in
  let c := mkReading "temperature" (33 # 2) None 1690000000000 Absent in
  let w := mkWorld (Some "mongodb://db") (Reachable [a; c]) 1700000000000 [] in
  exists latest stats,
    fst (api_summary exact_mean w) = inr (mkResponse 200 (BSummary latest stats))
    /\ (forall e, In e stats ->
          exists l, In l latest /\ sensor l = stat_sensor e)
    /\ (forall r, In r [a; c] -> exists l, In l latest /\ sensor l = sensor r).
Proof.
  intros a c w.
  apply (stats_sensors_have_latest exact_mean w (1700000000000 - 24 * ms_per_hour) [a; c]).
  repeat split.
Defined.

Lemma lister_agrees_with_latest_witness :
  let a := mkReading "soil" (30 # 1) None 1699999990000 (Value "field-1") in
  let c := mkReading "temperature" (33 # 2) None 1690000000000 Absent in
  let w := mkWorld (Some "mongodb://db") (Reachable [a; c]) 1700000000000 [] in
  exists sensors locations latest stats,
    fst (api_sensors w) = inr (mkResponse 200 (BDimensions sensors locations))
    /\ fst (api_summary exact_mean w) = inr (mkResponse 200 (BSummary latest stats))
    /\ (forall s, In s sensors <-> exists l, In l latest /\ sensor l = s)
    /\ (forall x, x <> "__none__" ->
          (In x locations
           <-> x <> "" /\ exists l, In l latest /\ location l = Value x)).
Proof.
  intros a c w.
  apply (lister_agrees_with_latest exact_mean w (1700000000000 - 24 * ms_per_hour) [a; c]).
  repeat split.
Defined.

Lemma unlisted_sensor_has_empty_series_witness :
  let a := mkReading "soil" (30 # 1) None 1699999990000 (Value "field-1") in
  let w := mkWorld (Some "mongodb://db") (Reachable [a]) 1700000000000 [] in
  fst (api_timeseries ascii_int batch_of_101 [("sensor", "humidity")] w)
  = inr (mkResponse 200 (BSeries [])).
Proof.
  intros a w.
  destruct (unlisted_sensor_has_empty_series ascii_int batch_of_101 [("sensor", "humidity")] w
              "humidity" (1700000000000 - 24 * 3600000) 1000 [a])
    as (sensors & locations & out & Hl & Hrun & Hempty & _).
  - repeat split; try reflexivity; try (unfold int64_max; lia).
    exists 24. split; reflexivity.
  - rewrite Hrun, Hempty; [reflexivity |].
    injection Hl as <- _. simpl. intros [H | []]. discriminate H.
Defined.
